(** * Device-secret provisioning (sw/device/silicon_creator/manuf/lib/provisioning.c)

    A shallow embedding of the provisioning flow: the share validator, the
    flash secret writer, the SECRET2 (root key) configurator and the two entry
    points.  Peripheral drivers are external: the code is embedded as a
    program issuing driver calls, and is run against an arbitrary handler that
    answers them, with the list of calls and answers recorded. *)

From Stdlib Require Import ZArith Lia List Bool.
From Stdlib Require String.
From stdpp Require Import base list.
Import ListNotations.

(** ** Statuses (sw/device/lib/base/status.h) *)

(** [status_t]: a status is ok or carries an error code.  The header is not
    part of the sources; the flow only tests ok-ness and forwards errors. *)
Inductive status_t : Type :=
| OK_STATUS
| ERROR (code : Z).

(** The code of [INTERNAL()] (absl's kInternal). *)
Definition kInternal : Z := 13.
Definition INTERNAL : status_t := ERROR kInternal.

Definition status_ok (s : status_t) : bool :=
  match s with OK_STATUS => true | ERROR _ => false end.

(** ** Machine words *)

Definition UINT32_MAX : Z := 2 ^ 32 - 1.
Definition UINT64_MAX : Z := 2 ^ 64 - 1.

(** Value kept by a store into a [uint32_t] object. *)
Definition to_uint32 (z : Z) : Z := z mod 2 ^ 32.

(** ** Constants of the module's enum *)

Definition kCreatorSeedSizeInBytes : nat := 32.
Definition kCreatorSeedSizeInWords : nat := kCreatorSeedSizeInBytes / 4.
Definition kOwnerSeedSizeInWords : nat := kCreatorSeedSizeInWords.
Definition kFlashInfoPartitionId : Z := 0.
Definition kFlashInfoBankId : Z := 0.
Definition kFlashInfoPageIdCreatorSecret : Z := 1.
Definition kFlashInfoPageIdOwnerSecret : Z := 2.
Definition kOtpDefaultBlankValue : Z := 0.

(** ** Share validator *)

(** The loop of [shares_check], from index [i] with [n] iterations left.
    Buffers are lists indexed with a bounds check: [None] is an access
    outside the buffer. *)
Fixpoint shares_check_loop (share0 share1 : list Z) (i n : nat)
    (found_error : bool) : option bool :=
  match n with
  | O => Some found_error
  | S n' =>
    match share0 !! i, share1 !! i, share1 !! 0 with
    | Some a, Some b, Some b0 =>
      let found_error := found_error || (a =? b)%Z in
      let found_error := found_error || ((a =? UINT64_MAX)%Z || (a =? 0)%Z) in
      let found_error := found_error || ((b =? UINT64_MAX)%Z || (b0 =? 0)%Z) in
      shares_check_loop share0 share1 (S i) n' found_error
    | _, _, _ => None
    end
  end.

Definition shares_check (share0 share1 : list Z) (len : nat) : option status_t :=
  match shares_check_loop share0 share1 0 len false with
  | Some found_error => Some (if found_error then INTERNAL else OK_STATUS)
  | None => None
  end.

(** What one iteration of the loop adds to [found_error]. *)
Definition share_word_flagged (share0 share1 : list Z) (i : nat) : bool :=
  let a := nth i share0 0%Z in
  let b := nth i share1 0%Z in
  let b0 := nth 0 share1 0%Z in
  (a =? b)%Z || ((a =? UINT64_MAX)%Z || (a =? 0)%Z) || ((b =? UINT64_MAX)%Z || (b0 =? 0)%Z).

(** The rule of the validator as the reference form is described: the second
    share is tested for 0 and for all-ones at index 0 only. *)
Definition reference_rule_index0 (shareA shareB : list Z) (len : nat) : Prop :=
  exists i, i < len /\
    (nth i shareA 0%Z = nth i shareB 0%Z
     \/ nth i shareA 0%Z = 0%Z \/ nth i shareA 0%Z = UINT64_MAX
     \/ nth 0 shareB 0%Z = 0%Z \/ nth 0 shareB 0%Z = UINT64_MAX).

(** The rule the loop computes: all-ones is tested on every word of the
    second share, zero on its word 0. *)
Definition reference_rule (shareA shareB : list Z) (len : nat) : Prop :=
  exists i, i < len /\
    (nth i shareA 0%Z = nth i shareB 0%Z
     \/ nth i shareA 0%Z = 0%Z \/ nth i shareA 0%Z = UINT64_MAX
     \/ nth i shareB 0%Z = UINT64_MAX \/ nth 0 shareB 0%Z = 0%Z).

(** The symmetric rule: every pair differs and no word of either share is 0
    or all-ones. *)
Definition symmetric_rule (A B : list Z) : Prop :=
  forall i, i < length A ->
    nth i A 0%Z <> nth i B 0%Z
    /\ nth i A 0%Z <> 0%Z /\ nth i A 0%Z <> UINT64_MAX
    /\ nth i B 0%Z <> 0%Z /\ nth i B 0%Z <> UINT64_MAX.


(** ** Peripheral drivers *)

Inductive hardened_bool_t : Type := kHardenedBoolTrue | kHardenedBoolFalse.

Inductive dif_otp_ctrl_partition_t : Type :=
| kDifOtpCtrlPartitionVendorTest
| kDifOtpCtrlPartitionCreatorSwCfg
| kDifOtpCtrlPartitionOwnerSwCfg
| kDifOtpCtrlPartitionHwCfg
| kDifOtpCtrlPartitionSecret0
| kDifOtpCtrlPartitionSecret1
| kDifOtpCtrlPartitionSecret2
| kDifOtpCtrlPartitionLifeCycle.

Inductive dif_flash_ctrl_partition_type_t : Type :=
| kDifFlashCtrlPartitionTypeData
| kDifFlashCtrlPartitionTypeInfo.

(** The driver functions the module calls, indexed by what a call hands back:
    its status and, where the C function has an out-parameter, the value it
    stored there.  Arguments that are read through a pointer are passed as the
    words read (a driver does not change them); the peripheral handles and
    the NULL seed material are left out.  A reply's word list is the stream
    of words the driver produced; the caller's buffer receives its first
    [len] entries. *)
Inductive call : Type -> Type :=
| entropy_complex_init : call status_t
| entropy_csrng_instantiate (disable_trng_input : hardened_bool_t) : call status_t
| entropy_csrng_generate (len : nat) : call (status_t * list Z)
| entropy_csrng_reseed (disable_trng_input : hardened_bool_t) : call status_t
| entropy_csrng_uninstantiate : call status_t
| flash_ctrl_testutils_info_region_scrambled_setup
    (page_id bank_id partition_id : Z) : call (status_t * Z)
| flash_ctrl_testutils_erase_and_write_page
    (address partition_id : Z) (data : list Z)
    (partition_type : dif_flash_ctrl_partition_type_t) (word_count : nat) : call status_t
| flash_ctrl_testutils_read
    (address partition_id : Z)
    (partition_type : dif_flash_ctrl_partition_type_t) (word_count : nat)
    (delay : Z) : call (status_t * list Z)
| otp_ctrl_testutils_dai_write64
    (partition : dif_otp_ctrl_partition_t) (address : Z) (buffer : list Z)
    (len : nat) : call status_t
| otp_ctrl_testutils_lock_partition
    (partition : dif_otp_ctrl_partition_t) (digest : Z) : call status_t
| dif_otp_ctrl_is_digest_computed
    (partition : dif_otp_ctrl_partition_t) : call (status_t * bool)
| lc_ctrl_testutils_operational_state_check : call status_t.

(** ** Programs over driver calls *)

(** A program returns, performs an access outside an array ([Fault]), or
    calls a driver and continues with its reply. *)
Inductive prog (R : Type) : Type :=
| Ret (r : R)
| Fault
| Vis {X : Type} (c : call X) (k : X -> prog R).
Arguments Ret {R} r.
Arguments Fault {R}.
Arguments Vis {R X} c k.

Fixpoint bind {A B : Type} (p : prog A) (f : A -> prog B) : prog B :=
  match p with
  | Ret a => f a
  | Fault => Fault
  | Vis c k => Vis c (fun x => bind (k x) f)
  end.

Definition perform {X : Type} (c : call X) : prog X := Vis c Ret.

(** A bounds-checked array access inside a program. *)
Definition checked {A : Type} (o : option A) : prog A :=
  match o with Some a => Ret a | None => Fault end.

Declare Scope prog_scope.
Delimit Scope prog_scope with prog.
Notation "x <- p ;; k" := (bind p (fun x => k))
  (at level 62, p at next level, right associativity) : prog_scope.
(** The TRY macro: leave the function with the status if it is an error. *)
Notation "'TRY' p ;; k" :=
  (bind p (fun status_ => if status_ok status_ then k else Ret status_))
  (at level 62, p at next level, right associativity) : prog_scope.
(** TRY on a function with an out-parameter [x]. *)
Notation "'TRY' p 'OUT' x ;; k" :=
  (bind p (fun reply_ => let status_ := fst reply_ in let x := snd reply_ in
                         if status_ok status_ then k else Ret status_))
  (at level 62, p at next level, x name, right associativity) : prog_scope.

(** ** Local arrays *)

(** A local array of [n] words before anything is stored in it.  Its content
    is indeterminate in C; the module reads no slot it has not filled. *)
Definition uninitialized (n : nat) : list Z := repeat 0%Z n.

(** The [len] 32-bit words a driver stores through a [uint32_t *]. *)
Definition words_stored (len : nat) (ws : list Z) : list Z :=
  map (fun i => to_uint32 (nth i ws 0%Z)) (seq 0 len).

(** A driver fills [buf[0 .. len)]. *)
Definition buf_fill (buf : list Z) (len : nat) (ws : list Z) : option (list Z) :=
  if len <=? length buf then Some (words_stored len ws ++ drop len buf) else None.

(** A driver reads [buf[0 .. len)]. *)
Definition buf_read (buf : list Z) (len : nat) : option (list Z) :=
  if len <=? length buf then Some (take len buf) else None.

(** A [uint64_t] array seen through the [uint32_t *] cast (little endian). *)
Fixpoint as_uint64 (buf : list Z) : list Z :=
  match buf with
  | lo :: hi :: rest => Z.lor lo (Z.shiftl hi 32) :: as_uint64 rest
  | _ => []
  end.

(** ** Flash secret writer *)

(** The comparison loop of [flash_ctrl_secret_write]. *)
Fixpoint secret_check_loop (seed seed_result : list Z) (i n : nat)
    (found_error : bool) : option bool :=
  match n with
  | O => Some found_error
  | S n' =>
    match seed !! i, seed_result !! i with
    | Some a, Some r =>
      let found_error :=
        found_error || ((a =? 0)%Z || (a =? UINT32_MAX)%Z || negb (a =? r)%Z) in
      secret_check_loop seed seed_result (S i) n' found_error
    | _, _ => None
    end
  end.

Local Open Scope prog_scope.

Definition flash_ctrl_secret_write (page_id bank_id partition_id : Z)
    (len : nat) : prog status_t :=
  TRY perform (entropy_csrng_instantiate kHardenedBoolFalse) ;;
  let seed := uninitialized kCreatorSeedSizeInWords in
  TRY perform (entropy_csrng_generate len) OUT ws ;;
  seed <- checked (buf_fill seed len ws) ;;
  TRY perform entropy_csrng_uninstantiate ;;
  TRY perform (flash_ctrl_testutils_info_region_scrambled_setup
                 page_id bank_id partition_id) OUT address ;;
  data <- checked (buf_read seed len) ;;
  TRY perform (flash_ctrl_testutils_erase_and_write_page
                 address partition_id data kDifFlashCtrlPartitionTypeInfo len) ;;
  let seed_result := uninitialized kCreatorSeedSizeInWords in
  TRY perform (flash_ctrl_testutils_read
                 address partition_id kDifFlashCtrlPartitionTypeInfo len 0%Z) OUT rs ;;
  seed_result <- checked (buf_fill seed_result len rs) ;;
  found_error <- checked (secret_check_loop seed seed_result 0 len false) ;;
  Ret (if found_error : bool then INTERNAL else OK_STATUS).

Definition flash_ctrl_creator_secret_write : prog status_t :=
  TRY flash_ctrl_secret_write kFlashInfoPageIdCreatorSecret kFlashInfoBankId
        kFlashInfoPartitionId kCreatorSeedSizeInWords ;;
  Ret OK_STATUS.

Definition flash_ctrl_owner_secret_write : prog status_t :=
  TRY flash_ctrl_secret_write kFlashInfoPageIdOwnerSecret kFlashInfoBankId
        kFlashInfoPartitionId kOwnerSeedSizeInWords ;;
  Ret OK_STATUS.

(** ** OTP SECRET2 partition *)

(** The constants of otp_ctrl_regs.h the module uses.  The header is
    generated and not part of the sources, so they are parameters. *)
Record otp_ctrl_regs : Type := {
  OTP_CTRL_PARAM_SECRET2_OFFSET : Z;
  OTP_CTRL_PARAM_CREATOR_ROOT_KEY_SHARE0_OFFSET : Z;
  OTP_CTRL_PARAM_CREATOR_ROOT_KEY_SHARE0_SIZE : nat;
  OTP_CTRL_PARAM_CREATOR_ROOT_KEY_SHARE1_OFFSET : Z;
  OTP_CTRL_PARAM_CREATOR_ROOT_KEY_SHARE1_SIZE : nat
}.

(** The module's static_assert: both shares have the same size. *)
Definition root_key_share_sizes_match (regs : otp_ctrl_regs) : Prop :=
  OTP_CTRL_PARAM_CREATOR_ROOT_KEY_SHARE0_SIZE regs
  = OTP_CTRL_PARAM_CREATOR_ROOT_KEY_SHARE1_SIZE regs.

Definition otp_partition_secret2_is_locked : prog (status_t * bool) :=
  reply <- perform (dif_otp_ctrl_is_digest_computed kDifOtpCtrlPartitionSecret2) ;;
  if status_ok (fst reply) then Ret (OK_STATUS, snd reply) else Ret reply.

Section Secret2.
Variable regs : otp_ctrl_regs.

Definition kRootKeyShareSizeInBytes : nat :=
  OTP_CTRL_PARAM_CREATOR_ROOT_KEY_SHARE0_SIZE regs.
Definition kRootKeyShareSizeIn32BitWords : nat := kRootKeyShareSizeInBytes / 4.
Definition kRootKeyShareSizeIn64BitWords : nat := kRootKeyShareSizeInBytes / 8.
Definition kRootKeyOffsetShare0 : Z :=
  (OTP_CTRL_PARAM_CREATOR_ROOT_KEY_SHARE0_OFFSET regs
   - OTP_CTRL_PARAM_SECRET2_OFFSET regs)%Z.
Definition kRootKeyOffsetShare1 : Z :=
  (OTP_CTRL_PARAM_CREATOR_ROOT_KEY_SHARE1_OFFSET regs
   - OTP_CTRL_PARAM_SECRET2_OFFSET regs)%Z.

Definition otp_partition_secret2_configure : prog status_t :=
  TRY perform (entropy_csrng_instantiate kHardenedBoolFalse) ;;
  let share0 := uninitialized (2 * kRootKeyShareSizeIn64BitWords) in
  TRY perform (entropy_csrng_generate kRootKeyShareSizeIn32BitWords) OUT ws ;;
  share0 <- checked (buf_fill share0 kRootKeyShareSizeIn32BitWords ws) ;;
  TRY perform (entropy_csrng_reseed kHardenedBoolFalse) ;;
  let share1 := uninitialized (2 * kRootKeyShareSizeIn64BitWords) in
  TRY perform (entropy_csrng_generate kRootKeyShareSizeIn32BitWords) OUT ws ;;
  share1 <- checked (buf_fill share1 kRootKeyShareSizeIn32BitWords ws) ;;
  TRY perform entropy_csrng_uninstantiate ;;
  let share0 := as_uint64 share0 in
  let share1 := as_uint64 share1 in
  TRY checked (shares_check share0 share1 kRootKeyShareSizeIn64BitWords) ;;
  buffer <- checked (buf_read share0 kRootKeyShareSizeIn64BitWords) ;;
  TRY perform (otp_ctrl_testutils_dai_write64 kDifOtpCtrlPartitionSecret2
                 kRootKeyOffsetShare0 buffer kRootKeyShareSizeIn64BitWords) ;;
  buffer <- checked (buf_read share1 kRootKeyShareSizeIn64BitWords) ;;
  TRY perform (otp_ctrl_testutils_dai_write64 kDifOtpCtrlPartitionSecret2
                 kRootKeyOffsetShare1 buffer kRootKeyShareSizeIn64BitWords) ;;
  TRY checked (shares_check share0 share1 kRootKeyShareSizeIn64BitWords) ;;
  TRY perform (otp_ctrl_testutils_lock_partition kDifOtpCtrlPartitionSecret2 0%Z) ;;
  Ret OK_STATUS.

(** ** Entry points *)

Definition provisioning_device_secrets_start : prog status_t :=
  TRY perform lc_ctrl_testutils_operational_state_check ;;
  TRY otp_partition_secret2_is_locked OUT is_locked ;;
  if is_locked : bool then Ret OK_STATUS
  else
    TRY perform entropy_complex_init ;;
    TRY flash_ctrl_creator_secret_write ;;
    TRY flash_ctrl_owner_secret_write ;;
    TRY otp_partition_secret2_configure ;;
    Ret OK_STATUS.

Definition provisioning_device_secrets_end : prog status_t :=
  TRY otp_partition_secret2_is_locked OUT is_locked ;;
  Ret (if is_locked : bool then OK_STATUS else INTERNAL).
End Secret2.

(** ** Running a program against the peripherals *)

(** The peripherals: a state [W] and an answer to every driver call. *)
Definition handler (W : Type) : Type := forall X : Type, call X -> W -> X * W.

(** A driver call together with its reply. *)
Inductive event : Type :=
| Ev {X : Type} (c : call X) (x : X).

Inductive outcome (R : Type) : Type :=
| Done (r : R)
| Undefined.
Arguments Done {R} r.
Arguments Undefined {R}.

Record run_result (W R : Type) : Type := {
  out : outcome R;
  trace : list event;
  final : W
}.
Arguments out {W R} _.
Arguments trace {W R} _.
Arguments final {W R} _.

Definition logged {W R : Type} (e : event) (r : run_result W R) : run_result W R :=
  {| out := out r; trace := e :: trace r; final := final r |}.

Fixpoint run {W R : Type} (h : handler W) (p : prog R) (w : W) : run_result W R :=
  match p with
  | Ret r => {| out := Done r; trace := []; final := w |}
  | Fault => {| out := Undefined; trace := []; final := w |}
  | Vis c k => let (x, w') := h _ c w in logged (Ev c x) (run h (k x) w')
  end.

(** ** Reading a trace *)

(** The status a driver call returned. *)
Definition reply_status {X : Type} (c : call X) : X -> status_t :=
  match c in call X return X -> status_t with
  | entropy_csrng_generate _ => fst
  | flash_ctrl_testutils_info_region_scrambled_setup _ _ _ => fst
  | flash_ctrl_testutils_read _ _ _ _ _ => fst
  | dif_otp_ctrl_is_digest_computed _ => fst
  | _ => fun s => s
  end.

(** The words a driver call stored through its buffer argument. *)
Definition reply_words {X : Type} (c : call X) : X -> list Z :=
  match c in call X return X -> list Z with
  | entropy_csrng_generate _ => snd
  | flash_ctrl_testutils_read _ _ _ _ _ => snd
  | _ => fun _ => []
  end.

Definition event_status (e : event) : status_t :=
  match e with Ev c x => reply_status c x end.

Definition event_words (e : event) : list Z :=
  match e with Ev c x => reply_words c x end.

Definition event_ok (e : event) : bool := status_ok (event_status e).

(** The operations of the entropy complex. *)
Inductive entropy_op : Type :=
| EComplexInit
| EInstantiate (disable_trng_input : hardened_bool_t)
| EGenerate (len : nat)
| EReseed (disable_trng_input : hardened_bool_t)
| EUninstantiate.

Definition entropy_op_of {X : Type} (c : call X) : option entropy_op :=
  match c with
  | entropy_complex_init => Some EComplexInit
  | entropy_csrng_instantiate d => Some (EInstantiate d)
  | entropy_csrng_generate len => Some (EGenerate len)
  | entropy_csrng_reseed d => Some (EReseed d)
  | entropy_csrng_uninstantiate => Some EUninstantiate
  | _ => None
  end.

(** The entropy operations of a trace, in order. *)
Fixpoint entropy_ops (tr : list event) : list entropy_op :=
  match tr with
  | [] => []
  | Ev c _ :: tr' =>
    match entropy_op_of c with
    | Some op => op :: entropy_ops tr'
    | None => entropy_ops tr'
    end
  end.

Definition entropy_failed (e : event) : bool :=
  match e with
  | Ev c x => match entropy_op_of c with
              | Some _ => negb (status_ok (reply_status c x))
              | None => false
              end
  end.

Definition is_lock (e : event) : bool :=
  match e with
  | Ev (otp_ctrl_testutils_lock_partition _ _) _ => true
  | _ => false
  end.

Definition is_otp_write (e : event) : bool :=
  match e with
  | Ev (otp_ctrl_testutils_dai_write64 _ _ _ _) _ => true
  | _ => false
  end.

Definition is_flash_program (e : event) : bool :=
  match e with
  | Ev (flash_ctrl_testutils_erase_and_write_page _ _ _ _ _) _ => true
  | _ => false
  end.

(** Calls that change the OTP or the flash. *)
Definition is_store_op (e : event) : bool :=
  is_lock e || is_otp_write e || is_flash_program e.

Definition read_succeeded (e : event) : bool :=
  match e with
  | Ev (flash_ctrl_testutils_read _ _ _ _ _) x => status_ok (fst x)
  | _ => false
  end.

(** ** Shapes of complete runs *)

(** The six driver calls of a secret write in which every call succeeds,
    drawing [ws] and reading [rs] back. *)
Definition secret_write_trace (page_id bank_id partition_id : Z) (len : nat)
    (ws : list Z) (address : Z) (rs : list Z) : list event :=
  [ Ev (entropy_csrng_instantiate kHardenedBoolFalse) OK_STATUS;
    Ev (entropy_csrng_generate len) (OK_STATUS, ws);
    Ev entropy_csrng_uninstantiate OK_STATUS;
    Ev (flash_ctrl_testutils_info_region_scrambled_setup page_id bank_id partition_id)
       (OK_STATUS, address);
    Ev (flash_ctrl_testutils_erase_and_write_page address partition_id
          (words_stored len ws) kDifFlashCtrlPartitionTypeInfo len) OK_STATUS;
    Ev (flash_ctrl_testutils_read address partition_id
          kDifFlashCtrlPartitionTypeInfo len 0%Z) (OK_STATUS, rs) ].

(** Word [i] passes the final check: the drawn word is neither 0 nor
    all-ones and the word read back equals it. *)
Definition secret_word_ok (ws rs : list Z) (i : nat) : Prop :=
  to_uint32 (nth i ws 0%Z) <> 0%Z
  /\ to_uint32 (nth i ws 0%Z) <> UINT32_MAX
  /\ to_uint32 (nth i rs 0%Z) = to_uint32 (nth i ws 0%Z).

Definition secret_word_bad (ws rs : list Z) (i : nat) : bool :=
  let a := to_uint32 (nth i ws 0%Z) in
  let r := to_uint32 (nth i rs 0%Z) in
  (a =? 0)%Z || (a =? UINT32_MAX)%Z || negb (a =? r)%Z.

(** The peripherals in state [w] answer the six driver calls of a secret
    write with success, one after the other: the CSRNG hands out [ws], the
    region setup gives [address], the page is programmed with the [len]
    drawn words, the read-back gives [rs], and the peripherals are left
    in [w']. *)
Definition secret_write_answers {W : Type} (h : handler W)
    (page_id bank_id partition_id : Z) (len : nat) (w : W)
    (ws : list Z) (address : Z) (rs : list Z) (w' : W) : Prop :=
  exists w1 w2 w3 w4 w5 : W,
    h _ (entropy_csrng_instantiate kHardenedBoolFalse) w = (OK_STATUS, w1)
    /\ h _ (entropy_csrng_generate len) w1 = ((OK_STATUS, ws), w2)
    /\ h _ entropy_csrng_uninstantiate w2 = (OK_STATUS, w3)
    /\ h _ (flash_ctrl_testutils_info_region_scrambled_setup
              page_id bank_id partition_id) w3 = ((OK_STATUS, address), w4)
    /\ h _ (flash_ctrl_testutils_erase_and_write_page address partition_id
              (words_stored len ws) kDifFlashCtrlPartitionTypeInfo len) w4
       = (OK_STATUS, w5)
    /\ h _ (flash_ctrl_testutils_read address partition_id
              kDifFlashCtrlPartitionTypeInfo len 0%Z) w5 = ((OK_STATUS, rs), w').

Section Secret2Traces.
Variable regs : otp_ctrl_regs.

(** The 64-bit words of a share drawn as [ws]. *)
Definition root_key_share (ws : list Z) : list Z :=
  as_uint64 (words_stored (kRootKeyShareSizeIn32BitWords regs) ws).

(** The five entropy calls of the configurator, all successful. *)
Definition configure_draws (ws0 ws1 : list Z) : list event :=
  [ Ev (entropy_csrng_instantiate kHardenedBoolFalse) OK_STATUS;
    Ev (entropy_csrng_generate (kRootKeyShareSizeIn32BitWords regs)) (OK_STATUS, ws0);
    Ev (entropy_csrng_reseed kHardenedBoolFalse) OK_STATUS;
    Ev (entropy_csrng_generate (kRootKeyShareSizeIn32BitWords regs)) (OK_STATUS, ws1);
    Ev entropy_csrng_uninstantiate OK_STATUS ].

(** The two share writes, both successful. *)
Definition configure_writes (ws0 ws1 : list Z) : list event :=
  [ Ev (otp_ctrl_testutils_dai_write64 kDifOtpCtrlPartitionSecret2
          (kRootKeyOffsetShare0 regs) (root_key_share ws0)
          (kRootKeyShareSizeIn64BitWords regs)) OK_STATUS;
    Ev (otp_ctrl_testutils_dai_write64 kDifOtpCtrlPartitionSecret2
          (kRootKeyOffsetShare1 regs) (root_key_share ws1)
          (kRootKeyShareSizeIn64BitWords regs)) OK_STATUS ].

Definition lock_event (s : status_t) : event :=
  Ev (otp_ctrl_testutils_lock_partition kDifOtpCtrlPartitionSecret2 0%Z) s.

(** The entropy operations of the configurator, in order. *)
Definition configure_entropy_ops : list entropy_op :=
  [ EInstantiate kHardenedBoolFalse;
    EGenerate (kRootKeyShareSizeIn32BitWords regs);
    EReseed kHardenedBoolFalse;
    EGenerate (kRootKeyShareSizeIn32BitWords regs);
    EUninstantiate ].
End Secret2Traces.

(** The entropy operations of one secret write, in order. *)
Definition secret_write_entropy_ops (len : nat) : list entropy_op :=
  [ EInstantiate kHardenedBoolFalse; EGenerate len; EUninstantiate ].

(** ** A simulated device *)

(** A device to run the flow on: the lifecycle gate, the SECRET2 digest, the
    words the CSRNG will hand out, the flash info pages programmed so far
    (latest first), masks of faulty flash cells (xor-ed onto the words read
    back) and the OTP writes accepted so far. *)
Record device : Type := {
  lc_operational : bool;
  secret2_digest : bool;
  csrng_words : list Z;
  flash_info : list (Z * list Z);
  flash_faults : list Z;
  otp_secret2 : list (Z * list Z)
}.

Fixpoint flash_lookup (pages : list (Z * list Z)) (address : Z) : option (list Z) :=
  match pages with
  | [] => None
  | (a, data) :: rest => if (a =? address)%Z then Some data else flash_lookup rest address
  end.

(** The words of the page at [address]; an erased page reads all-ones. *)
Definition sim_flash_page (d : device) (address : Z) (n : nat) : list Z :=
  match flash_lookup (flash_info d) address with
  | Some data => take n data
  | None => repeat UINT32_MAX n
  end.

Definition sim_flash_read (d : device) (address : Z) (n : nat) : list Z :=
  map (fun i => Z.lxor (nth i (sim_flash_page d address n) 0%Z) (nth i (flash_faults d) 0%Z))
      (seq 0 n).

Definition kFailedPrecondition : Z := 9.

Definition sim : handler device :=
  fun X c =>
    match c in call X return device -> X * device with
    | entropy_csrng_generate len => fun d =>
        ((OK_STATUS, take len (csrng_words d)),
         {| lc_operational := lc_operational d; secret2_digest := secret2_digest d;
            csrng_words := drop len (csrng_words d); flash_info := flash_info d;
            flash_faults := flash_faults d; otp_secret2 := otp_secret2 d |})
    | flash_ctrl_testutils_info_region_scrambled_setup page_id bank_id _ => fun d =>
        ((OK_STATUS, (bank_id * 524288 + page_id * 2048)%Z), d)
    | flash_ctrl_testutils_erase_and_write_page address _ data _ _ => fun d =>
        (OK_STATUS,
         {| lc_operational := lc_operational d; secret2_digest := secret2_digest d;
            csrng_words := csrng_words d; flash_info := (address, data) :: flash_info d;
            flash_faults := flash_faults d; otp_secret2 := otp_secret2 d |})
    | flash_ctrl_testutils_read address _ _ n _ => fun d =>
        ((OK_STATUS, sim_flash_read d address n), d)
    | otp_ctrl_testutils_dai_write64 _ address buffer _ => fun d =>
        if secret2_digest d then (ERROR kFailedPrecondition, d)
        else (OK_STATUS,
              {| lc_operational := lc_operational d; secret2_digest := secret2_digest d;
                 csrng_words := csrng_words d; flash_info := flash_info d;
                 flash_faults := flash_faults d;
                 otp_secret2 := (address, buffer) :: otp_secret2 d |})
    | otp_ctrl_testutils_lock_partition _ _ => fun d =>
        (OK_STATUS,
         {| lc_operational := lc_operational d; secret2_digest := true;
            csrng_words := csrng_words d; flash_info := flash_info d;
            flash_faults := flash_faults d; otp_secret2 := otp_secret2 d |})
    | dif_otp_ctrl_is_digest_computed _ => fun d => ((OK_STATUS, secret2_digest d), d)
    | lc_ctrl_testutils_operational_state_check => fun d =>
        (if lc_operational d then OK_STATUS else ERROR kFailedPrecondition, d)
    | _ => fun d => (OK_STATUS, d)
    end.

(** A register map to run on: 32-byte shares, next to each other. *)
Definition sample_regs : otp_ctrl_regs :=
  {| OTP_CTRL_PARAM_SECRET2_OFFSET := 1952;
     OTP_CTRL_PARAM_CREATOR_ROOT_KEY_SHARE0_OFFSET := 1960;
     OTP_CTRL_PARAM_CREATOR_ROOT_KEY_SHARE0_SIZE := 32;
     OTP_CTRL_PARAM_CREATOR_ROOT_KEY_SHARE1_OFFSET := 1992;
     OTP_CTRL_PARAM_CREATOR_ROOT_KEY_SHARE1_SIZE := 32 |}.

(** A fresh device whose CSRNG hands out [ws]. *)
Definition fresh_device (ws : list Z) : device :=
  {| lc_operational := true; secret2_digest := false; csrng_words := ws;
     flash_info := []; flash_faults := []; otp_secret2 := [] |}.

(** The words the simulated flash holds at [address]. *)
Definition sim_flash_contents (d : device) (address : Z) : list Z :=
  match flash_lookup (flash_info d) address with
  | Some data => data
  | None => []
  end.

(** A device whose flash cell [i] of every page reads back with
    [nth i faults 0] xor-ed on. *)
Definition faulty_device (ws faults : list Z) : device :=
  {| lc_operational := true; secret2_digest := false; csrng_words := ws;
     flash_info := []; flash_faults := faults; otp_secret2 := [] |}.

(** A device that has been provisioned, and one outside the operational
    lifecycle states. *)
Definition locked_device : device :=
  {| lc_operational := true; secret2_digest := true; csrng_words := [];
     flash_info := []; flash_faults := []; otp_secret2 := [] |}.

Definition ineligible_device : device :=
  {| lc_operational := false; secret2_digest := false; csrng_words := [];
     flash_info := []; flash_faults := []; otp_secret2 := [] |}.

(** Words for the CSRNG of a simulated device. *)
Definition words_1_to_8 : list Z := [1; 2; 3; 4; 5; 6; 7; 8]%Z.
Definition words_1_to_16 : list Z :=
  [1; 2; 3; 4; 5; 6; 7; 8; 9; 10; 11; 12; 13; 14; 15; 16]%Z.

(** ** Reading a trace: failures and data *)

(** No call follows a failed one, and the status of a failed call is the
    status returned. *)
Fixpoint fail_stop (tr : list event) (o : outcome status_t) : Prop :=
  match tr with
  | [] => True
  | e :: tr' =>
    if event_ok e then fail_stop tr' o
    else tr' = [] /\ o = Done (event_status e)
  end.

(** The words a driver call reads through its buffer argument. *)
Definition call_data {X : Type} (c : call X) : list Z :=
  match c with
  | flash_ctrl_testutils_erase_and_write_page _ _ data _ _ => data
  | otp_ctrl_testutils_dai_write64 _ _ buffer _ => buffer
  | _ => []
  end.

Definition event_data (e : event) : list Z :=
  match e with Ev c _ => call_data c end.

Definition is_uint32 (z : Z) : Prop := (0 <= z < 2 ^ 32)%Z.
Definition is_uint64 (z : Z) : Prop := (0 <= z < 2 ^ 64)%Z.

(** ** Runs in sequence *)

(** The run of [TRY p ;; k], from the run of [p] and the runs of [k]. *)
Definition seq_runs {W : Type} (r : run_result W status_t)
    (next : W -> run_result W status_t) : run_result W status_t :=
  match out r with
  | Done OK_STATUS =>
    {| out := out (next (final r));
       trace := trace r ++ trace (next (final r));
       final := final (next (final r)) |}
  | _ => r
  end.

(** The calls of [provisioning_device_secrets_start] before the secrets are
    written, on a device that is eligible and not yet locked. *)
Definition start_prologue : list event :=
  [ Ev lc_ctrl_testutils_operational_state_check OK_STATUS;
    Ev (dif_otp_ctrl_is_digest_computed kDifOtpCtrlPartitionSecret2) (OK_STATUS, false);
    Ev entropy_complex_init OK_STATUS ].

(** The two calls of a run that finds the partition locked. *)
Definition start_skip_trace : list event :=
  [ Ev lc_ctrl_testutils_operational_state_check OK_STATUS;
    Ev (dif_otp_ctrl_is_digest_computed kDifOtpCtrlPartitionSecret2) (OK_STATUS, true) ].

(** The entropy operations of a whole provisioning run, in order. *)
Definition start_entropy_ops (regs : otp_ctrl_regs) : list entropy_op :=
  EComplexInit
  :: secret_write_entropy_ops kCreatorSeedSizeInWords
  ++ secret_write_entropy_ops kOwnerSeedSizeInWords
  ++ configure_entropy_ops regs.

(** The run of the part of [provisioning_device_secrets_start] that follows
    the initialisation of the entropy complex: the creator secret, the owner
    secret, the configurator. *)
Definition secrets_run {W : Type} (h : handler W) (regs : otp_ctrl_regs) (w : W)
    : run_result W status_t :=
  seq_runs
    (run h (flash_ctrl_secret_write kFlashInfoPageIdCreatorSecret kFlashInfoBankId
              kFlashInfoPartitionId kCreatorSeedSizeInWords) w)
    (fun w =>
       seq_runs
         (run h (flash_ctrl_secret_write kFlashInfoPageIdOwnerSecret kFlashInfoBankId
                   kFlashInfoPartitionId kOwnerSeedSizeInWords) w)
         (fun w =>
            seq_runs (run h (otp_partition_secret2_configure regs) w)
                     (run h (Ret OK_STATUS)))).

(** The calls of a provisioning run that reaches the lock. *)
Definition start_commit_trace (regs : otp_ctrl_regs)
    (ws1 : list Z) (a1 : Z) (rs1 : list Z)
    (ws2 : list Z) (a2 : Z) (rs2 : list Z)
    (d0 d1 : list Z) (s : status_t) : list event :=
  start_prologue
  ++ secret_write_trace kFlashInfoPageIdCreatorSecret kFlashInfoBankId
       kFlashInfoPartitionId kCreatorSeedSizeInWords ws1 a1 rs1
  ++ secret_write_trace kFlashInfoPageIdOwnerSecret kFlashInfoBankId
       kFlashInfoPartitionId kOwnerSeedSizeInWords ws2 a2 rs2
  ++ configure_draws regs d0 d1 ++ configure_writes regs d0 d1 ++ [lock_event s].

(** A register map whose share size is not a multiple of 8. *)
Definition odd_regs : otp_ctrl_regs :=
  {| OTP_CTRL_PARAM_SECRET2_OFFSET := 1952;
     OTP_CTRL_PARAM_CREATOR_ROOT_KEY_SHARE0_OFFSET := 1960;
     OTP_CTRL_PARAM_CREATOR_ROOT_KEY_SHARE0_SIZE := 36;
     OTP_CTRL_PARAM_CREATOR_ROOT_KEY_SHARE1_OFFSET := 1996;
     OTP_CTRL_PARAM_CREATOR_ROOT_KEY_SHARE1_SIZE := 36 |}.

Definition words_1_to_32 : list Z := map Z.of_nat (seq 1 32).

(** * The OTBN RSA round-trip test (sw/device/tests/otbn_rsa_test.c)

    The helper functions of the test: the two OTBN operations, the data
    check, the profiling pair and the round trip.  The OTBN and log functions
    are driver calls as before.  check.h is not among the sources: a failed
    CHECK ends the test, with the values given to its message. *)
Module OtbnRsaTest.
Import Stdlib.Strings.String.StringSyntax.
Delimit Scope string_scope with string.

Definition kTestDecrypt : bool := true.
Definition kTestRsaGreater1k : bool := false.

Inductive otbn_app_t : Type := kOtbnAppRsa.

Inductive otbn_addr_t : Type :=
| kOtbnVarRsaMode
| kOtbnVarRsaNLimbs
| kOtbnVarRsaInOut
| kOtbnVarRsaModulus
| kOtbnVarRsaExp.

Definition kRsa512SizeBytes : nat := 512 / 8.
Definition kRsa1024SizeBytes : nat := 1024 / 8.
Definition kRsa2048SizeBytes : nat := 2048 / 8.
Definition kRsa3072SizeBytes : nat := 3072 / 8.
Definition kRsa4096SizeBytes : nat := 4096 / 8.

Definition kDifOtbnErrBitsNoError : Z := 0.

Record dif_otbn_t : Type := { base_addr : Z }.

Definition to_uint8 (z : Z) : Z := z mod 2 ^ 8.
Definition to_uint64 (z : Z) : Z := z mod 2 ^ 64.

(** The bytes of a [uint32_t] object (little endian). *)
Definition uint32_bytes (z : Z) : list Z :=
  [ to_uint8 z; to_uint8 (Z.shiftr z 8); to_uint8 (Z.shiftr z 16);
    to_uint8 (Z.shiftr z 24) ].

Inductive log_arg : Type :=
| LogStr (s : String.string)
| LogInt (z : Z).

Inductive call : Type -> Type :=
| dif_otbn_init (base_addr : Z) : call (status_t * dif_otbn_t)
| otbn_testutils_load_app (otbn : dif_otbn_t) (app : otbn_app_t) : call status_t
| otbn_testutils_write_data (otbn : dif_otbn_t) (len_bytes : nat) (src : list Z)
    (dest : otbn_addr_t) : call status_t
| otbn_testutils_execute (otbn : dif_otbn_t) : call status_t
| otbn_testutils_wait_for_done (otbn : dif_otbn_t) (expected_err_bits : Z)
    : call status_t
| otbn_testutils_read_data (otbn : dif_otbn_t) (len_bytes : nat)
    (src : otbn_addr_t) : call (status_t * list Z)
| ibex_mcycle_read : call Z
| LOG_INFO (format : String.string) (args : list log_arg) : call unit.

(** Why a test stopped: a CHECK whose condition is false, with its message
    and the values for it, or a status that is not ok. *)
Inductive failure : Type :=
| CheckFailed (message : String.string) (args : list Z)
| StatusFailed (s : status_t).

Inductive prog (R : Type) : Type :=
| Ret (r : R)
| Abort (f : failure)
| Fault
| Vis {X : Type} (c : call X) (k : X -> prog R).
Arguments Ret {R} r.
Arguments Abort {R} f.
Arguments Fault {R}.
Arguments Vis {R X} c k.

Fixpoint bind {A B : Type} (p : prog A) (f : A -> prog B) : prog B :=
  match p with
  | Ret a => f a
  | Abort r => Abort r
  | Fault => Fault
  | Vis c k => Vis c (fun x => bind (k x) f)
  end.

Definition perform {X : Type} (c : call X) : prog X := Vis c Ret.

Definition checked {A : Type} (o : option A) : prog A :=
  match o with Some a => Ret a | None => Fault end.

Declare Scope test_scope.
Delimit Scope test_scope with test.
Notation "x <- p ;; k" := (bind p (fun x => k))
  (at level 62, p at next level, right associativity) : test_scope.
Notation "'DO' p ;; k" := (bind p (fun _ => k))
  (at level 62, p at next level, right associativity) : test_scope.
Local Open Scope test_scope.

Definition CHECK (condition : bool) (message : String.string) (args : list Z)
    : prog unit :=
  if condition then Ret tt else Abort (CheckFailed message args).

Definition CHECK_STATUS_OK (p : prog status_t) : prog unit :=
  s <- p ;; if status_ok s then Ret tt else Abort (StatusFailed s).

(** CHECK_STATUS_OK and CHECK_DIF_OK on a function with an out-parameter. *)
Definition CHECK_STATUS_OK_OUT {A : Type} (p : prog (status_t * A)) : prog A :=
  reply <- p ;;
  if status_ok (fst reply) then Ret (snd reply) else Abort (StatusFailed (fst reply)).

Definition CHECK_DIF_OK {A : Type} (p : prog (status_t * A)) : prog A :=
  CHECK_STATUS_OK_OUT p.

(** The [len] bytes a driver stores through a [uint8_t *]. *)
Definition bytes_stored (len : nat) (bs : list Z) : list Z :=
  map (fun i => to_uint8 (nth i bs 0%Z)) (seq 0 len).

Definition byte_fill (buf : list Z) (len : nat) (bs : list Z) : option (list Z) :=
  if len <=? length buf then Some (bytes_stored len bs ++ drop len buf) else None.

Definition rsa_encrypt (otbn : option dif_otbn_t) (modulus in_ out : list Z)
    (size_bytes : nat) : prog (list Z) :=
  match otbn with
  | None => Abort (CheckFailed "otbn != NULL"%string [])
  | Some otbn =>
    DO CHECK (size_bytes mod 32 =? 0) "size_bytes % 32 == 0"%string [] ;;
    let n_limbs := size_bytes / 32 in
    DO CHECK (negb (n_limbs =? 0) && (n_limbs <=? 16))
          "n_limbs != 0 && n_limbs <= 16"%string [] ;;
    let mode := 1%Z in
    DO CHECK_STATUS_OK (perform (otbn_testutils_write_data otbn 4 (uint32_bytes mode)
                                kOtbnVarRsaMode)) ;;
    DO CHECK_STATUS_OK (perform (otbn_testutils_write_data otbn 4
                                (uint32_bytes (Z.of_nat n_limbs)) kOtbnVarRsaNLimbs)) ;;
    data <- checked (buf_read modulus size_bytes) ;;
    DO CHECK_STATUS_OK (perform (otbn_testutils_write_data otbn size_bytes data
                                kOtbnVarRsaModulus)) ;;
    data <- checked (buf_read in_ size_bytes) ;;
    DO CHECK_STATUS_OK (perform (otbn_testutils_write_data otbn size_bytes data
                                kOtbnVarRsaInOut)) ;;
    DO CHECK_STATUS_OK (perform (otbn_testutils_execute otbn)) ;;
    DO CHECK_STATUS_OK (perform (otbn_testutils_wait_for_done otbn
                                kDifOtbnErrBitsNoError)) ;;
    rs <- CHECK_STATUS_OK_OUT
            (perform (otbn_testutils_read_data otbn size_bytes kOtbnVarRsaInOut)) ;;
    checked (byte_fill out size_bytes rs)
  end.

Definition rsa_decrypt (otbn : option dif_otbn_t)
    (modulus private_exponent in_ out : list Z) (size_bytes : nat)
    : prog (list Z) :=
  match otbn with
  | None => Abort (CheckFailed "otbn != NULL"%string [])
  | Some otbn =>
    DO CHECK (size_bytes mod 32 =? 0) "size_bytes % 32 == 0"%string [] ;;
    let n_limbs := size_bytes / 32 in
    DO CHECK (negb (n_limbs =? 0) && (n_limbs <=? 16))
          "n_limbs != 0 && n_limbs <= 16"%string [] ;;
    let mode := 2%Z in
    DO CHECK_STATUS_OK (perform (otbn_testutils_write_data otbn 4 (uint32_bytes mode)
                                kOtbnVarRsaMode)) ;;
    DO CHECK_STATUS_OK (perform (otbn_testutils_write_data otbn 4
                                (uint32_bytes (Z.of_nat n_limbs)) kOtbnVarRsaNLimbs)) ;;
    data <- checked (buf_read modulus size_bytes) ;;
    DO CHECK_STATUS_OK (perform (otbn_testutils_write_data otbn size_bytes data
                                kOtbnVarRsaModulus)) ;;
    data <- checked (buf_read private_exponent size_bytes) ;;
    DO CHECK_STATUS_OK (perform (otbn_testutils_write_data otbn size_bytes data
                                kOtbnVarRsaExp)) ;;
    data <- checked (buf_read in_ size_bytes) ;;
    DO CHECK_STATUS_OK (perform (otbn_testutils_write_data otbn size_bytes data
                                kOtbnVarRsaInOut)) ;;
    DO CHECK_STATUS_OK (perform (otbn_testutils_execute otbn)) ;;
    DO CHECK_STATUS_OK (perform (otbn_testutils_wait_for_done otbn
                                kDifOtbnErrBitsNoError)) ;;
    rs <- CHECK_STATUS_OK_OUT
            (perform (otbn_testutils_read_data otbn size_bytes kOtbnVarRsaInOut)) ;;
    checked (byte_fill out size_bytes rs)
  end.

(** The loop of [check_data], from index [i] with [n] iterations left. *)
Fixpoint check_data_loop (actual expected : list Z) (i n : nat) : prog unit :=
  match n with
  | O => Ret tt
  | S n' =>
    match actual !! i, expected !! i with
    | Some a, Some e =>
      DO CHECK (a =? e)%Z
            "Data mismatch at byte %d: 0x%x (actual) != 0x%x (expected)"%string
            [Z.of_nat i; a; e] ;;
      check_data_loop actual expected (S i) n'
    | _, _ => Fault
    end
  end.

Definition check_data (actual expected : list Z) (size_bytes : nat) : prog unit :=
  check_data_loop actual expected 0 size_bytes.

(** The static variables [t_start] and [t_end]. *)
Record profile_t : Type := { t_start : Z; t_end : Z }.

Definition profile_start (st : profile_t) : prog profile_t :=
  t <- perform ibex_mcycle_read ;;
  Ret {| t_start := to_uint64 t; t_end := t_end st |}.

Definition profile_end (msg : String.string) (st : profile_t) : prog profile_t :=
  t <- perform ibex_mcycle_read ;;
  let st := {| t_start := t_start st; t_end := to_uint64 t |} in
  let cycles := to_uint32 (to_uint64 (t_end st - t_start st)) in
  let time_us := (cycles / 100)%Z in
  DO perform (LOG_INFO "%s took %u cycles or %u us @ 100 MHz."%string
             [LogStr msg; LogInt cycles; LogInt time_us]) ;;
  Ret st.

Section RoundTrip.
(** The base address of OTBN, from the generated top_earlgrey.h. *)
Variable TOP_EARLGREY_OTBN_BASE_ADDR : Z.

Definition rsa_roundtrip (size_bytes : nat)
    (modulus private_exponent in_ encrypted_expected : list Z)
    (out_encrypted out_decrypted : list Z) (st : profile_t)
    : prog (list Z * list Z * profile_t) :=
  st <- profile_start st ;;
  otbn <- CHECK_DIF_OK (perform (dif_otbn_init TOP_EARLGREY_OTBN_BASE_ADDR)) ;;
  DO CHECK_STATUS_OK (perform (otbn_testutils_load_app otbn kOtbnAppRsa)) ;;
  st <- profile_end "Initialization"%string st ;;
  DO perform (LOG_INFO "Encrypting"%string []) ;;
  st <- profile_start st ;;
  out_encrypted <- rsa_encrypt (Some otbn) modulus in_ out_encrypted size_bytes ;;
  DO check_data out_encrypted encrypted_expected size_bytes ;;
  st <- profile_end "Encryption"%string st ;;
  if kTestDecrypt then
    DO perform (LOG_INFO "Decrypting"%string []) ;;
    st <- profile_start st ;;
    out_decrypted <- rsa_decrypt (Some otbn) modulus private_exponent
                       encrypted_expected out_decrypted size_bytes ;;
    DO check_data out_decrypted in_ size_bytes ;;
    st <- profile_end "Decryption"%string st ;;
    Ret (out_encrypted, out_decrypted, st)
  else Ret (out_encrypted, out_decrypted, st).
End RoundTrip.

(** ** Running a test *)

Definition handler (W : Type) : Type := forall X : Type, call X -> W -> X * W.

Inductive event : Type :=
| Ev {X : Type} (c : call X) (x : X).

Inductive outcome (R : Type) : Type :=
| Done (r : R)
| Aborted (f : failure)
| Undefined.
Arguments Done {R} r.
Arguments Aborted {R} f.
Arguments Undefined {R}.

Record run_result (W R : Type) : Type := {
  out : outcome R;
  trace : list event;
  final : W
}.
Arguments out {W R} _.
Arguments trace {W R} _.
Arguments final {W R} _.

Definition logged {W R : Type} (e : event) (r : run_result W R) : run_result W R :=
  {| out := out r; trace := e :: trace r; final := final r |}.

Fixpoint run {W R : Type} (h : handler W) (p : prog R) (w : W) : run_result W R :=
  match p with
  | Ret r => {| out := Done r; trace := []; final := w |}
  | Abort f => {| out := Aborted f; trace := []; final := w |}
  | Fault => {| out := Undefined; trace := []; final := w |}
  | Vis c k => let (x, w') := h _ c w in logged (Ev c x) (run h (k x) w')
  end.

(** The sizes the two operations accept: 32 to 512 bytes in steps of 32. *)
Definition valid_size (size_bytes : nat) : Prop :=
  size_bytes mod 32 = 0 /\ 32 <= size_bytes <= 512.

(** The calls of an encryption in which every call succeeds. *)
Definition encrypt_trace (otbn : dif_otbn_t) (modulus in_ : list Z)
    (size_bytes : nat) (rs : list Z) : list event :=
  [ Ev (otbn_testutils_write_data otbn 4 (uint32_bytes 1) kOtbnVarRsaMode) OK_STATUS;
    Ev (otbn_testutils_write_data otbn 4 (uint32_bytes (Z.of_nat (size_bytes / 32)))
          kOtbnVarRsaNLimbs) OK_STATUS;
    Ev (otbn_testutils_write_data otbn size_bytes (take size_bytes modulus)
          kOtbnVarRsaModulus) OK_STATUS;
    Ev (otbn_testutils_write_data otbn size_bytes (take size_bytes in_)
          kOtbnVarRsaInOut) OK_STATUS;
    Ev (otbn_testutils_execute otbn) OK_STATUS;
    Ev (otbn_testutils_wait_for_done otbn kDifOtbnErrBitsNoError) OK_STATUS;
    Ev (otbn_testutils_read_data otbn size_bytes kOtbnVarRsaInOut) (OK_STATUS, rs) ].

(** The calls of a decryption in which every call succeeds. *)
Definition decrypt_trace (otbn : dif_otbn_t) (modulus private_exponent in_ : list Z)
    (size_bytes : nat) (rs : list Z) : list event :=
  [ Ev (otbn_testutils_write_data otbn 4 (uint32_bytes 2) kOtbnVarRsaMode) OK_STATUS;
    Ev (otbn_testutils_write_data otbn 4 (uint32_bytes (Z.of_nat (size_bytes / 32)))
          kOtbnVarRsaNLimbs) OK_STATUS;
    Ev (otbn_testutils_write_data otbn size_bytes (take size_bytes modulus)
          kOtbnVarRsaModulus) OK_STATUS;
    Ev (otbn_testutils_write_data otbn size_bytes (take size_bytes private_exponent)
          kOtbnVarRsaExp) OK_STATUS;
    Ev (otbn_testutils_write_data otbn size_bytes (take size_bytes in_)
          kOtbnVarRsaInOut) OK_STATUS;
    Ev (otbn_testutils_execute otbn) OK_STATUS;
    Ev (otbn_testutils_wait_for_done otbn kDifOtbnErrBitsNoError) OK_STATUS;
    Ev (otbn_testutils_read_data otbn size_bytes kOtbnVarRsaInOut) (OK_STATUS, rs) ].

(** A simulated OTBN: every call succeeds, reading gives back [answer], the
    cycle counter advances by [step] at each reading. *)
Record otbn_sim : Type := { answer : list Z; cycle : Z; step : Z }.

Definition sim : handler otbn_sim :=
  fun X c =>
    match c in call X return otbn_sim -> X * otbn_sim with
    | dif_otbn_init base => fun d => ((OK_STATUS, {| base_addr := base |}), d)
    | otbn_testutils_read_data _ _ _ => fun d => ((OK_STATUS, answer d), d)
    | ibex_mcycle_read => fun d =>
        (cycle d, {| answer := answer d; cycle := (cycle d + step d)%Z; step := step d |})
    | LOG_INFO _ _ => fun d => (tt, d)
    | _ => fun d => (OK_STATUS, d)
    end.

(** Bytes for the simulated OTBN. *)
Definition bytes_0_to_31 : list Z := map Z.of_nat (seq 0 32).

Arguments byte_fill : simpl never.
Arguments bytes_stored : simpl never.

End OtbnRsaTest.

Arguments buf_fill : simpl never.
Arguments buf_read : simpl never.
Arguments shares_check : simpl never.
Arguments words_stored : simpl never.
Arguments uninitialized : simpl never.
Arguments kRootKeyShareSizeIn32BitWords : simpl never.
Arguments kRootKeyShareSizeIn64BitWords : simpl never.

(** ** Lemmas on the share validator *)

Lemma lookup_nth_Z (l : list Z) (i : nat) :
  i < length l -> l !! i = Some (nth i l 0%Z).
Proof.
  revert i. induction l as [|x l IH]; intros [|i] H; simpl in *; try lia.
  - reflexivity.
  - apply IH. lia.
Qed.

Lemma shares_check_loop_spec (share0 share1 : list Z) (n i : nat) (fe : bool) :
  i + n <= length share0 -> i + n <= length share1 ->
  shares_check_loop share0 share1 i n fe
  = Some (fe || existsb (share_word_flagged share0 share1) (seq i n)).
Proof.
  revert i fe. induction n as [|n IH]; intros i fe H0 H1; simpl.
  - now rewrite orb_false_r.
  - rewrite (lookup_nth_Z share0 i), (lookup_nth_Z share1 i) by lia.
    replace (share1 !! 0) with (Some (nth 0 share1 0%Z)).
    2:{ destruct share1; simpl in *; [lia | reflexivity]. }
    rewrite IH by lia. unfold share_word_flagged.
    f_equal. rewrite !orb_assoc. reflexivity.
Qed.

Lemma share_word_flagged_iff (A B : list Z) (i : nat) :
  share_word_flagged A B i = true <->
  (nth i A 0%Z = nth i B 0%Z
   \/ nth i A 0%Z = 0%Z \/ nth i A 0%Z = UINT64_MAX
   \/ nth i B 0%Z = UINT64_MAX \/ nth 0 B 0%Z = 0%Z).
Proof.
  unfold share_word_flagged.
  rewrite !orb_true_iff, !Z.eqb_eq. tauto.
Qed.

Lemma shares_check_existsb (A B : list Z) (len : nat) :
  length A = len -> length B = len ->
  shares_check A B len
  = Some (if existsb (share_word_flagged A B) (seq 0 len) then INTERNAL else OK_STATUS).
Proof.
  intros HA HB. unfold shares_check.
  rewrite shares_check_loop_spec by lia. reflexivity.
Qed.

(** C1 (as amended): on buffers of [len] 64-bit words the validator reports
    an error exactly when, at some index [i < len], the two words are equal,
    or the word of the first share is 0 or all-ones, or the word of the second
    share at [i] is all-ones, or word 0 of the second share is 0; otherwise it
    returns ok. *)
Theorem shares_check_reference (A B : list Z) (len : nat) :
  length A = len -> length B = len ->
  (shares_check A B len = Some INTERNAL <-> reference_rule A B len)
  /\ (shares_check A B len = Some OK_STATUS <-> ~ reference_rule A B len).
Proof.
  intros HA HB. rewrite shares_check_existsb by assumption.
  assert (E : existsb (share_word_flagged A B) (seq 0 len) = true
              <-> reference_rule A B len).
  { rewrite existsb_exists. unfold reference_rule. split.
    - intros (i & Hi & Hf). apply in_seq in Hi.
      exists i. split; [lia|]. now apply share_word_flagged_iff.
    - intros (i & Hi & Hf). exists i. split; [apply in_seq; lia|].
      now apply share_word_flagged_iff. }
  destruct (existsb _ _).
  - assert (R : reference_rule A B len) by now apply E.
    split; split; intro H; try reflexivity; try assumption;
      try discriminate; contradiction.
  - assert (R : ~ reference_rule A B len).
    { intro H. apply E in H. discriminate. }
    split; split; intro H; try reflexivity; try assumption;
      try discriminate; contradiction.
Qed.

Lemma shares_check_reference_witness :
  shares_check [1; 2]%Z [3; UINT64_MAX]%Z 2 = Some INTERNAL
  <-> reference_rule [1; 2]%Z [3; UINT64_MAX]%Z 2.
Proof.
  apply (shares_check_reference [1; 2]%Z [3; UINT64_MAX]%Z 2); reflexivity.
Defined.

(** C1 (as stated) fails: with the second share's last word all-ones and its
    word 0 ordinary the validator reports an error, although the stated rule
    (both tests of the second share at index 0) is not met. *)
Lemma shares_check_index0_counterexample :
  ~ (shares_check [1; 2]%Z [3; UINT64_MAX]%Z 2 = Some INTERNAL
     <-> reference_rule_index0 [1; 2]%Z [3; UINT64_MAX]%Z 2).
Proof.
  intros [H _]. specialize (H eq_refl).
  destruct H as (i & Hi & H).
  destruct i as [|[|i]]; [| |lia]; simpl in H;
    decompose [or] H; discriminate.
Qed.

(** C2 fails on the code: a zero word of the second share past index 0 is
    accepted, so the validator succeeds where the symmetric rule is broken. *)
Theorem shares_check_misses_zero_word :
  shares_check [1; 2]%Z [3; 0]%Z 2 = Some OK_STATUS
  /\ ~ symmetric_rule [1; 2]%Z [3; 0]%Z.
Proof.
  split; [reflexivity|].
  intros H. specialize (H 1). simpl in H.
  destruct H as (_ & _ & _ & H & _); [lia | now apply H].
Qed.

(** ** Lemmas on local arrays *)

Lemma length_words_stored (len : nat) (ws : list Z) : length (words_stored len ws) = len.
Proof. unfold words_stored. now rewrite length_map, length_seq. Qed.

Lemma buf_fill_Some (buf : list Z) (len : nat) (ws : list Z) :
  len <= length buf ->
  buf_fill buf len ws = Some (words_stored len ws ++ drop len buf).
Proof.
  intros H. unfold buf_fill. apply Nat.leb_le in H. now rewrite H.
Qed.

Lemma buf_fill_None (buf : list Z) (len : nat) (ws : list Z) :
  length buf < len -> buf_fill buf len ws = None.
Proof.
  intros H. unfold buf_fill. apply Nat.leb_gt in H. now rewrite H.
Qed.

Lemma buf_read_filled (len : nat) (ws rest : list Z) :
  buf_read (words_stored len ws ++ rest) len = Some (words_stored len ws).
Proof.
  unfold buf_read. rewrite length_app, length_words_stored.
  replace (len <=? len + length rest) with true by (symmetry; apply Nat.leb_le; lia).
  f_equal. apply take_app_length'. symmetry. apply length_words_stored.
Qed.

Lemma lookup_words_stored (len : nat) (ws rest : list Z) (i : nat) :
  i < len -> (words_stored len ws ++ rest) !! i = Some (to_uint32 (nth i ws 0%Z)).
Proof.
  intros H. rewrite lookup_app_l by (rewrite length_words_stored; lia).
  unfold words_stored. rewrite list_lookup_fmap.
  rewrite lookup_seq_lt by lia. reflexivity.
Qed.

Lemma secret_check_loop_spec (len : nat) (ws rs r1 r2 : list Z) (n i : nat) (fe : bool) :
  i + n <= len ->
  secret_check_loop (words_stored len ws ++ r1) (words_stored len rs ++ r2) i n fe
  = Some (fe || existsb (secret_word_bad ws rs) (seq i n)).
Proof.
  revert i fe. induction n as [|n IH]; intros i fe H; simpl.
  - now rewrite orb_false_r.
  - rewrite !lookup_words_stored by lia. rewrite IH by lia.
    unfold secret_word_bad. f_equal. symmetry. apply orb_assoc.
Qed.

(** One driver call of a run: take the handler's answer apart, the
    successful case first. *)
Tactic Notation "call_status" constr(h) "as" ident(w') ident(E) :=
  match goal with
  | |- context [h ?X ?c ?w] =>
      let s := fresh "s" in
      destruct (h X c w) as [s w'] eqn:E; destruct s as [|?]; cbn
  end.

Tactic Notation "call_reply" constr(h) "as" ident(v) ident(w') ident(E) :=
  match goal with
  | |- context [h ?X ?c ?w] =>
      let s := fresh "s" in
      destruct (h X c w) as [[s v] w'] eqn:E; destruct s as [|?]; cbn
  end.

Lemma secret_word_bad_false (ws rs : list Z) (i : nat) :
  secret_word_bad ws rs i = false <-> secret_word_ok ws rs i.
Proof.
  unfold secret_word_bad, secret_word_ok.
  rewrite !orb_false_iff, negb_false_iff, !Z.eqb_neq, Z.eqb_eq.
  intuition congruence.
Qed.

Lemma secret_words_checked (ws rs : list Z) (len : nat) :
  existsb (secret_word_bad ws rs) (seq 0 len) = false
  <-> forall i, i < len -> secret_word_ok ws rs i.
Proof.
  split.
  - intros H i Hi. apply secret_word_bad_false.
    destruct (secret_word_bad ws rs i) eqn:E; [|reflexivity].
    rewrite <- H. symmetry. apply existsb_exists.
    exists i. split; [apply in_seq; lia | exact E].
  - intros H. destruct (existsb _ _) eqn:E; [|reflexivity].
    apply existsb_exists in E. destruct E as (i & Hi & Hb).
    apply in_seq in Hi. specialize (H i ltac:(lia)).
    apply secret_word_bad_false in H. congruence.
Qed.

Ltac trace_statuses H :=
  apply (f_equal (map event_status)) in H; cbn in H; try discriminate H.
Ltac trace_words H :=
  apply (f_equal (map event_words)) in H; cbn in H.
Ltac inv_words H :=
  trace_words H; injection H as; subst.

Section SecretWriter.
Context {W : Type} (h : handler W).

Lemma run_bind {A B : Type} (p : prog A) (f : A -> prog B) (w : W) :
  run h (bind p f) w
  = match out (run h p w) with
    | Done a =>
      let r := run h (f a) (final (run h p w)) in
      {| out := out r; trace := trace (run h p w) ++ trace r; final := final r |}
    | Undefined =>
      {| out := Undefined; trace := trace (run h p w); final := final (run h p w) |}
    end.
Proof.
  revert w. induction p as [a| |X c k IH]; intros w; cbn.
  - now destruct (run h (f a) w).
  - reflexivity.
  - destruct (h X c w) as [x w']. cbn. rewrite IH.
    now destruct (out (run h (k x) w')).
Qed.

(** A wrapper [TRY(f(...)); return OK_STATUS();] makes the calls of [f]. *)
Lemma run_try_wrapper (p : prog status_t) (w : W) :
  trace (run h (TRY p ;; Ret OK_STATUS) w) = trace (run h p w)
  /\ (out (run h (TRY p ;; Ret OK_STATUS) w) = Undefined
      <-> out (run h p w) = Undefined).
Proof.
  rewrite run_bind. destruct (out (run h p w)) as [s|]; cbn.
  - destruct s; cbn; rewrite app_nil_r; split; try reflexivity;
      split; discriminate.
  - split; [reflexivity | tauto].
Qed.

Lemma flash_ctrl_secret_write_entropy_prefix page bank part len w :
  entropy_ops (trace (run h (flash_ctrl_secret_write page bank part len) w))
    `prefix_of` secret_write_entropy_ops len.
Proof.
  unfold flash_ctrl_secret_write, secret_write_entropy_ops. cbn.
  call_status h as w1 E1; [|eexists; reflexivity].
  call_reply h as ds w2 E2; [|eexists; reflexivity].
  destruct (buf_fill _ _ _); cbn; [|eexists; reflexivity].
  call_status h as w3 E3; [|eexists; reflexivity].
  call_reply h as addr w4 E4; [|eexists; reflexivity].
  destruct (buf_read _ _); cbn; [|eexists; reflexivity].
  call_status h as w5 E5; [|eexists; reflexivity].
  call_reply h as bs w6 E6; [|eexists; reflexivity].
  destruct (buf_fill _ _ _); cbn; [|eexists; reflexivity].
  destruct (secret_check_loop _ _ _ _ _); cbn; eexists; reflexivity.
Qed.

(** When the peripherals answer the six calls of a secret write with
    success, the run is these six calls and its status is decided by the
    final check of the drawn words against the words read back. *)
Lemma secret_write_answered page bank part len w ws address rs w' :
  secret_write_answers h page bank part len w ws address rs w' ->
  len <= kCreatorSeedSizeInWords ->
  run h (flash_ctrl_secret_write page bank part len) w
  = {| out := Done (if existsb (secret_word_bad ws rs) (seq 0 len)
                    then INTERNAL else OK_STATUS);
       trace := secret_write_trace page bank part len ws address rs;
       final := w' |}.
Proof.
  intros (w1 & w2 & w3 & w4 & w5 & E1 & E2 & E3 & E4 & E5 & E6) Hlen.
  unfold flash_ctrl_secret_write. cbn.
  rewrite E1. cbn. rewrite E2. cbn.
  rewrite buf_fill_Some by exact Hlen. cbn.
  rewrite E3. cbn. rewrite E4. cbn.
  rewrite buf_read_filled. cbn.
  rewrite E5. cbn. rewrite E6. cbn.
  rewrite buf_fill_Some by exact Hlen. cbn.
  rewrite secret_check_loop_spec by lia. cbn.
  now destruct (existsb (secret_word_bad ws rs) (seq 0 len)).
Qed.

(** C3: whenever the peripherals answer the six driver calls of a secret
    write with success, drawing [ws] and reading [rs] back, the call returns
    ok if and only if every one of the [len] drawn words is neither 0 nor
    all-ones and is read back unchanged, and one failing word at any index,
    first or last, makes it return the internal error.  The call returns ok
    in no other run: ok is returned exactly when the six calls were answered
    with success and all [len] words pass.  The same holds read off the
    run's own trace. *)
Theorem flash_ctrl_secret_write_ok_iff page bank part len w :
  (forall ws address rs w',
     secret_write_answers h page bank part len w ws address rs w' ->
     len <= kCreatorSeedSizeInWords ->
     trace (run h (flash_ctrl_secret_write page bank part len) w)
     = secret_write_trace page bank part len ws address rs
     /\ final (run h (flash_ctrl_secret_write page bank part len) w) = w'
     /\ (out (run h (flash_ctrl_secret_write page bank part len) w) = Done OK_STATUS
         <-> forall i, i < len -> secret_word_ok ws rs i)
     /\ (forall i, i < len -> ~ secret_word_ok ws rs i ->
         out (run h (flash_ctrl_secret_write page bank part len) w) = Done INTERNAL))
  /\ (out (run h (flash_ctrl_secret_write page bank part len) w) = Done OK_STATUS
      <-> len <= kCreatorSeedSizeInWords
          /\ exists ws address rs w',
               secret_write_answers h page bank part len w ws address rs w'
               /\ forall i, i < len -> secret_word_ok ws rs i)
  /\ (out (run h (flash_ctrl_secret_write page bank part len) w) = Done OK_STATUS
      <-> exists ws address rs,
            trace (run h (flash_ctrl_secret_write page bank part len) w)
            = secret_write_trace page bank part len ws address rs
            /\ forall i, i < len -> secret_word_ok ws rs i)
  /\ (forall ws address rs i,
        trace (run h (flash_ctrl_secret_write page bank part len) w)
        = secret_write_trace page bank part len ws address rs ->
        i < len -> ~ secret_word_ok ws rs i ->
        out (run h (flash_ctrl_secret_write page bank part len) w) = Done INTERNAL).
Proof.
  split.
  { intros ws address rs w' Hans Hlen.
    rewrite (secret_write_answered _ _ _ _ _ _ _ _ _ Hans Hlen). cbn.
    split; [reflexivity|]. split; [reflexivity|].
    destruct (existsb (secret_word_bad ws rs) (seq 0 len)) eqn:B.
    - split; [split|].
      + discriminate.
      + intros Hok. apply secret_words_checked in Hok. congruence.
      + reflexivity.
    - split; [split|].
      + intros _. now apply secret_words_checked.
      + reflexivity.
      + intros i Hi Hbad. exfalso. apply Hbad.
        now apply (proj1 (secret_words_checked _ _ len) B). }
  split.
  { split.
    - unfold flash_ctrl_secret_write. cbn.
      call_status h as w1 E1; [|discriminate].
      call_reply h as ds w2 E2; [|discriminate].
      destruct (le_gt_dec len kCreatorSeedSizeInWords) as [Hlen|Hlen].
      2:{ rewrite buf_fill_None by exact Hlen. cbn. discriminate. }
      rewrite buf_fill_Some by exact Hlen. cbn.
      call_status h as w3 E3; [|discriminate].
      call_reply h as addr w4 E4; [|discriminate].
      rewrite buf_read_filled. cbn.
      call_status h as w5 E5; [|discriminate].
      call_reply h as bs w6 E6; [|discriminate].
      rewrite buf_fill_Some by exact Hlen. cbn.
      rewrite secret_check_loop_spec by lia. cbn.
      destruct (existsb (secret_word_bad ds bs) (seq 0 len)) eqn:B; [discriminate|].
      intros _. split; [exact Hlen|].
      exists ds, addr, bs, w6. split.
      + exists w1, w2, w3, w4, w5. now repeat split.
      + now apply secret_words_checked.
    - intros (Hlen & ws & address & rs & w' & Hans & Hok).
      rewrite (secret_write_answered _ _ _ _ _ _ _ _ _ Hans Hlen). cbn.
      apply secret_words_checked in Hok. now rewrite Hok. }
  pose (stop := fun (o : outcome status_t) (tr : list event) =>
    o <> Done OK_STATUS
    /\ forall ws address rs,
         tr <> secret_write_trace page bank part len ws address rs).
  assert (Stop : forall o tr, stop o tr ->
    (o = Done OK_STATUS
     <-> exists ws address rs,
           tr = secret_write_trace page bank part len ws address rs
           /\ forall i, i < len -> secret_word_ok ws rs i)
    /\ (forall ws address rs i,
          tr = secret_write_trace page bank part len ws address rs ->
          i < len -> ~ secret_word_ok ws rs i -> o = Done INTERNAL)).
  { intros o tr [Ho Htr]. split; [split|].
    - intros H. contradiction.
    - intros (ws & a & rs & H & _). now apply Htr in H.
    - intros ws a rs i H. now apply Htr in H. }
  unfold flash_ctrl_secret_write. cbn.
  call_status h as w1 E1; [|apply Stop; split; [discriminate | intros ? ? ? H; trace_statuses H]].
  call_reply h as ds w2 E2; [|apply Stop; split; [discriminate | intros ? ? ? H; trace_statuses H]].
  destruct (le_gt_dec len kCreatorSeedSizeInWords) as [Hlen|Hlen].
  2:{ rewrite buf_fill_None by exact Hlen. cbn.
      apply Stop; split; [discriminate | intros ? ? ? H; trace_statuses H]. }
  rewrite buf_fill_Some by exact Hlen. cbn.
  call_status h as w3 E3; [|apply Stop; split; [discriminate | intros ? ? ? H; trace_statuses H]].
  call_reply h as addr w4 E4; [|apply Stop; split; [discriminate | intros ? ? ? H; trace_statuses H]].
  rewrite buf_read_filled. cbn.
  call_status h as w5 E5; [|apply Stop; split; [discriminate | intros ? ? ? H; trace_statuses H]].
  call_reply h as bs w6 E6; [|apply Stop; split; [discriminate | intros ? ? ? H; trace_statuses H]].
  rewrite buf_fill_Some by exact Hlen. cbn.
  rewrite secret_check_loop_spec by lia. cbn.
  fold (secret_write_trace page bank part len ds addr bs).
  destruct (existsb (secret_word_bad ds bs) (seq 0 len)) eqn:B.
  - split; [split|].
    + discriminate.
    + intros (ws & a & rs & H & Hok). inv_words H.
      apply secret_words_checked in Hok. congruence.
    + reflexivity.
  - split; [split|].
    + intros _. exists ds, addr, bs. split; [reflexivity|].
      now apply secret_words_checked.
    + reflexivity.
    + intros ws a rs i H Hi Hbad. inv_words H.
      exfalso. apply Hbad. now apply (proj1 (secret_words_checked _ _ len) B).
Qed.

Lemma flash_ctrl_secret_write_defined page bank part len w :
  len <= kCreatorSeedSizeInWords ->
  out (run h (flash_ctrl_secret_write page bank part len) w) <> Undefined.
Proof.
  intros Hlen. unfold flash_ctrl_secret_write. cbn.
  call_status h as w1 E1; [|discriminate].
  call_reply h as ds w2 E2; [|discriminate].
  rewrite buf_fill_Some by exact Hlen. cbn.
  call_status h as w3 E3; [|discriminate].
  call_reply h as addr w4 E4; [|discriminate].
  rewrite buf_read_filled. cbn.
  call_status h as w5 E5; [|discriminate].
  call_reply h as bs w6 E6; [|discriminate].
  rewrite buf_fill_Some by exact Hlen. cbn.
  rewrite secret_check_loop_spec by lia. cbn. discriminate.
Qed.

Lemma secret_write_draw_length (p : prog status_t) (len n : nat) (w : W) :
  entropy_ops (trace (run h p w)) `prefix_of` secret_write_entropy_ops len ->
  In (EGenerate n) (entropy_ops (trace (run h (TRY p ;; Ret OK_STATUS) w))) ->
  n = len.
Proof.
  intros [k Hk] Hin.
  rewrite (proj1 (run_try_wrapper p w)) in Hin.
  assert (Hin' : In (EGenerate n) (secret_write_entropy_ops len)).
  { rewrite Hk. apply in_or_app. now left. }
  cbn in Hin'. destruct Hin' as [H|[H|[H|[]]]]; congruence.
Qed.

(** C10: the two local buffers of [flash_ctrl_secret_write] hold
    kCreatorSeedSizeInWords = 8 words whatever [len] is.  With [len <= 8]
    no run leaves them; with [len > 8] every run whose draw succeeds does.
    The creator and the owner secret writers draw exactly 8 words and never
    leave the buffers. *)
Theorem flash_ctrl_secret_write_bounds :
  kCreatorSeedSizeInWords = 8
  /\ (forall page bank part len w,
        len <= kCreatorSeedSizeInWords ->
        out (run h (flash_ctrl_secret_write page bank part len) w) <> Undefined)
  /\ (forall page bank part len w w1 w2 ws,
        kCreatorSeedSizeInWords < len ->
        h _ (entropy_csrng_instantiate kHardenedBoolFalse) w = (OK_STATUS, w1) ->
        h _ (entropy_csrng_generate len) w1 = ((OK_STATUS, ws), w2) ->
        out (run h (flash_ctrl_secret_write page bank part len) w) = Undefined)
  /\ (forall w,
        out (run h flash_ctrl_creator_secret_write w) <> Undefined
        /\ out (run h flash_ctrl_owner_secret_write w) <> Undefined)
  /\ (forall w n,
        In (EGenerate n) (entropy_ops (trace (run h flash_ctrl_creator_secret_write w)))
        \/ In (EGenerate n) (entropy_ops (trace (run h flash_ctrl_owner_secret_write w))) ->
        n = kCreatorSeedSizeInWords).
Proof.
  split; [reflexivity|].
  split; [intros; now apply flash_ctrl_secret_write_defined|].
  split.
  { intros page bank part len w w1 w2 ws Hlen E1 E2.
    unfold flash_ctrl_secret_write. cbn. rewrite E1. cbn. rewrite E2. cbn.
    rewrite buf_fill_None by exact Hlen. reflexivity. }
  split.
  { intros w. unfold flash_ctrl_creator_secret_write, flash_ctrl_owner_secret_write.
    split; intros H; apply (proj1 (proj2 (run_try_wrapper _ w))) in H; revert H;
      apply flash_ctrl_secret_write_defined; reflexivity. }
  unfold flash_ctrl_creator_secret_write, flash_ctrl_owner_secret_write.
  intros w n [H|H];
    eapply secret_write_draw_length in H;
    try exact H; apply flash_ctrl_secret_write_entropy_prefix.
Qed.
End SecretWriter.

Section FlashContract.
Context {W : Type} (h : handler W).
(** The words the flash holds at an address. *)
Variable flash_page : W -> Z -> list Z.
(** A successful erase-and-program leaves the page holding the data. *)
Hypothesis program_stores :
  forall w w' address part data ty n,
    h _ (flash_ctrl_testutils_erase_and_write_page address part data ty n) w
    = (OK_STATUS, w') ->
    flash_page w' address = data.
(** Reading does not change the flash. *)
Hypothesis read_keeps :
  forall w w' address part ty n delay reply,
    h _ (flash_ctrl_testutils_read address part ty n delay) w = (reply, w') ->
    flash_page w' = flash_page w.

(** C9: in a run of [flash_ctrl_secret_write] whose read-back call succeeds
    (so that erase-and-program succeeded before it) and that does not return
    ok, all six driver calls succeeded, some drawn word is 0, all-ones or
    read back changed, the internal error is returned, and the flash page
    holds the drawn words on return: nothing follows the read-back. *)
Theorem flash_ctrl_secret_write_no_rollback page bank part len w :
  existsb read_succeeded
    (trace (run h (flash_ctrl_secret_write page bank part len) w)) = true ->
  out (run h (flash_ctrl_secret_write page bank part len) w) <> Done OK_STATUS ->
  exists ws address rs,
    trace (run h (flash_ctrl_secret_write page bank part len) w)
    = secret_write_trace page bank part len ws address rs
    /\ (exists i, i < len /\ ~ secret_word_ok ws rs i)
    /\ out (run h (flash_ctrl_secret_write page bank part len) w) = Done INTERNAL
    /\ flash_page (final (run h (flash_ctrl_secret_write page bank part len) w)) address
       = words_stored len ws.
Proof using All.
  unfold flash_ctrl_secret_write. cbn.
  call_status h as w1 E1; [|discriminate].
  call_reply h as ds w2 E2; [|discriminate].
  destruct (le_gt_dec len kCreatorSeedSizeInWords) as [Hlen|Hlen].
  2:{ rewrite buf_fill_None by exact Hlen. cbn. discriminate. }
  rewrite buf_fill_Some by exact Hlen. cbn.
  call_status h as w3 E3; [|discriminate].
  call_reply h as addr w4 E4; [|discriminate].
  rewrite buf_read_filled. cbn.
  call_status h as w5 E5; [|discriminate].
  call_reply h as bs w6 E6; [|discriminate].
  rewrite buf_fill_Some by exact Hlen. cbn.
  rewrite secret_check_loop_spec by lia. cbn.
  intros _ Hout. exists ds, addr, bs.
  destruct (existsb (secret_word_bad ds bs) (seq 0 len)) eqn:B; [|congruence].
  split; [reflexivity|]. split; [|split; [reflexivity|]].
  - apply existsb_exists in B. destruct B as (i & Hi & Hb).
    apply in_seq in Hi. exists i. split; [lia|].
    intros Hok. apply secret_word_bad_false in Hok. congruence.
  - apply read_keeps in E6. rewrite E6. now apply program_stores in E5.
Qed.
End FlashContract.

Lemma length_as_uint64 (n : nat) (l : list Z) :
  length l = 2 * n -> length (as_uint64 l) = n.
Proof.
  revert l. induction n as [|n IH]; intros l H.
  - destruct l; [reflexivity | discriminate].
  - destruct l as [|lo [|hi rest]]; simpl in H; try lia.
    change (as_uint64 (lo :: hi :: rest))
      with (Z.lor lo (Z.shiftl hi 32) :: as_uint64 rest).
    cbn [length]. f_equal. apply IH. lia.
Qed.

Lemma buf_read_all (l : list Z) (n : nat) :
  length l = n -> buf_read l n = Some l.
Proof.
  intros H. unfold buf_read. subst n. rewrite Nat.leb_refl.
  f_equal. apply firstn_all.
Qed.

Section Configurator.
Context {W : Type} (h : handler W) (regs : otp_ctrl_regs).

Lemma share_fill (ws buf : list Z) :
  buf_fill (uninitialized (2 * kRootKeyShareSizeIn64BitWords regs))
    (kRootKeyShareSizeIn32BitWords regs) ws = Some buf ->
  buf = words_stored (kRootKeyShareSizeIn32BitWords regs) ws
  /\ kRootKeyShareSizeIn32BitWords regs = 2 * kRootKeyShareSizeIn64BitWords regs.
Proof.
  unfold buf_fill, uninitialized. rewrite repeat_length.
  destruct (Nat.leb_spec (kRootKeyShareSizeIn32BitWords regs)
              (2 * kRootKeyShareSizeIn64BitWords regs)) as [Hle|Hgt];
    [|discriminate].
  intros [= <-].
  assert (Hge : 2 * kRootKeyShareSizeIn64BitWords regs
                <= kRootKeyShareSizeIn32BitWords regs).
  { unfold kRootKeyShareSizeIn64BitWords, kRootKeyShareSizeIn32BitWords.
    apply Nat.div_le_lower_bound; [lia|].
    pose proof (Nat.Div0.mul_div_le (kRootKeyShareSizeInBytes regs) 8). lia. }
  split; [|lia].
  rewrite drop_ge by (rewrite repeat_length; lia). apply app_nil_r.
Qed.

Lemma length_root_key_share (ws : list Z) :
  kRootKeyShareSizeIn32BitWords regs = 2 * kRootKeyShareSizeIn64BitWords regs ->
  length (root_key_share regs ws) = kRootKeyShareSizeIn64BitWords regs.
Proof.
  intros H. unfold root_key_share. apply length_as_uint64.
  now rewrite length_words_stored.
Qed.

Lemma shares_check_root_key (ws0 ws1 : list Z) :
  kRootKeyShareSizeIn32BitWords regs = 2 * kRootKeyShareSizeIn64BitWords regs ->
  shares_check (root_key_share regs ws0) (root_key_share regs ws1)
    (kRootKeyShareSizeIn64BitWords regs) = Some OK_STATUS
  \/ shares_check (root_key_share regs ws0) (root_key_share regs ws1)
       (kRootKeyShareSizeIn64BitWords regs) = Some INTERNAL.
Proof.
  intros H. rewrite shares_check_existsb by now apply length_root_key_share.
  destruct (existsb _ _); [right | left]; reflexivity.
Qed.

(** C4: in every run of the configurator, a lock call is made only after
    the five entropy calls and the two share writes have all succeeded and
    the drawn shares pass the validator (which both of its runs compute, on
    the same buffers), and the lock is then the last call of the run, whose
    status is returned; a successful run ends with the successful lock; and
    when the drawn shares fail the validator, no call follows the draws (no
    OTP write, no lock) and the internal error is returned.  A share size
    that is not a multiple of 8 makes the first draw overrun its buffer: the
    run is then undefined before any OTP call. *)
Theorem otp_partition_secret2_configure_lock_last w :
  (existsb is_lock (trace (run h (otp_partition_secret2_configure regs) w)) = true ->
   exists ws0 ws1 s,
     trace (run h (otp_partition_secret2_configure regs) w)
     = configure_draws regs ws0 ws1 ++ configure_writes regs ws0 ws1 ++ [lock_event s]
     /\ shares_check (root_key_share regs ws0) (root_key_share regs ws1)
          (kRootKeyShareSizeIn64BitWords regs) = Some OK_STATUS
     /\ out (run h (otp_partition_secret2_configure regs) w) = Done s)
  /\ (out (run h (otp_partition_secret2_configure regs) w) = Done OK_STATUS ->
      exists ws0 ws1,
        trace (run h (otp_partition_secret2_configure regs) w)
        = configure_draws regs ws0 ws1 ++ configure_writes regs ws0 ws1
          ++ [lock_event OK_STATUS])
  /\ (forall ws0 ws1 rest,
        trace (run h (otp_partition_secret2_configure regs) w)
        = configure_draws regs ws0 ws1 ++ rest ->
        shares_check (root_key_share regs ws0) (root_key_share regs ws1)
          (kRootKeyShareSizeIn64BitWords regs) <> Some OK_STATUS ->
        rest = []
        /\ out (run h (otp_partition_secret2_configure regs) w) = Done INTERNAL).
Proof.
  unfold otp_partition_secret2_configure. cbn.
  call_status h as w1 E1.
  2:{ split; [discriminate|]. split; [discriminate|]. intros ? ? ? H. trace_statuses H. }
  call_reply h as d0 w2 E2.
  2:{ split; [discriminate|]. split; [discriminate|]. intros ? ? ? H. trace_statuses H. }
  destruct (buf_fill _ _ d0) as [share0|] eqn:F0; cbn.
  2:{ split; [discriminate|]. split; [discriminate|]. intros ? ? ? H. trace_statuses H. }
  apply share_fill in F0. destruct F0 as [-> Hsize].
  call_status h as w3 E3.
  2:{ split; [discriminate|]. split; [discriminate|]. intros ? ? ? H. trace_statuses H. }
  call_reply h as d1 w4 E4.
  2:{ split; [discriminate|]. split; [discriminate|]. intros ? ? ? H. trace_statuses H. }
  destruct (buf_fill _ _ d1) as [share1|] eqn:F1; cbn.
  2:{ split; [discriminate|]. split; [discriminate|]. intros ? ? ? H. trace_statuses H. }
  apply share_fill in F1. destruct F1 as [-> _].
  call_status h as w5 E5.
  2:{ split; [discriminate|]. split; [discriminate|]. intros ? ? ? H. trace_statuses H. }
  fold (root_key_share regs d0). fold (root_key_share regs d1).
  rewrite !buf_read_all by now apply length_root_key_share.
  destruct (shares_check_root_key d0 d1 Hsize) as [Chk|Chk]; rewrite Chk; cbn.
  2:{ split; [discriminate|]. split; [discriminate|].
      intros ws0 ws1 rest H _. split; [|reflexivity].
      apply (f_equal (drop 5)) in H. cbn in H. now symmetry. }
  call_status h as w6 E6.
  2:{ split; [discriminate|]. split; [discriminate|].
      intros ws0 ws1 rest H Hbad. exfalso. inv_words H. contradiction. }
  call_status h as w7 E7.
  2:{ split; [discriminate|]. split; [discriminate|].
      intros ws0 ws1 rest H Hbad. exfalso. inv_words H. contradiction. }
  split; [|split].
  - intros _. destruct (h _ _ w7) as [s w8]. exists d0, d1, s.
    split; [|split; [exact Chk|]]; destruct s; reflexivity.
  - destruct (h _ _ w7) as [s w8]. destruct s; cbn; [|discriminate].
    intros _. exists d0, d1. reflexivity.
  - intros ws0 ws1 rest H Hbad. exfalso.
    destruct (h _ _ w7) as [s w8]. destruct s; cbn in H; inv_words H; contradiction.
Qed.

(** C8: the entropy operations of any run of the configurator are an
    initial part of: instantiate, draw, reseed, draw, uninstantiate; they are
    all five, in this order, whenever no entropy call fails and no buffer is
    overrun.  The operations of a secret write are an initial part of:
    instantiate, draw, uninstantiate. *)
Theorem otp_partition_secret2_configure_entropy_order w :
  entropy_ops (trace (run h (otp_partition_secret2_configure regs) w))
    `prefix_of` configure_entropy_ops regs
  /\ (out (run h (otp_partition_secret2_configure regs) w) <> Undefined ->
      existsb entropy_failed
        (trace (run h (otp_partition_secret2_configure regs) w)) = false ->
      entropy_ops (trace (run h (otp_partition_secret2_configure regs) w))
      = configure_entropy_ops regs)
  /\ (forall page bank part len w',
        entropy_ops (trace (run h (flash_ctrl_secret_write page bank part len) w'))
          `prefix_of` secret_write_entropy_ops len).
Proof.
  enough (Main :
    entropy_ops (trace (run h (otp_partition_secret2_configure regs) w))
      `prefix_of` configure_entropy_ops regs
    /\ (out (run h (otp_partition_secret2_configure regs) w) <> Undefined ->
        existsb entropy_failed
          (trace (run h (otp_partition_secret2_configure regs) w)) = false ->
        entropy_ops (trace (run h (otp_partition_secret2_configure regs) w))
        = configure_entropy_ops regs)).
  { destruct Main as [Hp He]. split; [exact Hp|]. split; [exact He|].
    intros. apply flash_ctrl_secret_write_entropy_prefix. }
  unfold otp_partition_secret2_configure, configure_entropy_ops. cbn.
  call_status h as w1 E1; [|split; [eexists; reflexivity | discriminate]].
  call_reply h as d0 w2 E2; [|split; [eexists; reflexivity | discriminate]].
  destruct (buf_fill _ _ d0) as [share0|]; cbn;
    [|split; [eexists; reflexivity | intros H; now elim H]].
  call_status h as w3 E3; [|split; [eexists; reflexivity | discriminate]].
  call_reply h as d1 w4 E4; [|split; [eexists; reflexivity | discriminate]].
  destruct (buf_fill _ _ d1) as [share1|]; cbn;
    [|split; [eexists; reflexivity | intros H; now elim H]].
  call_status h as w5 E5; [|split; [eexists; reflexivity | discriminate]].
  destruct (shares_check _ _ _) as [[|e]|]; cbn;
    [|split; [now exists [] | reflexivity] ..].
  destruct (buf_read _ _) as [b0|]; cbn; [|split; [now exists [] | reflexivity]].
  call_status h as w6 E6; [|split; [now exists [] | reflexivity]].
  destruct (buf_read _ _) as [b1|]; cbn; [|split; [now exists [] | reflexivity]].
  call_status h as w7 E7; [|split; [now exists [] | reflexivity]].
  call_status h as w8 E8; split; solve [now exists [] | reflexivity].
Qed.
End Configurator.

Section EntryPoints.
Context {W : Type} (h : handler W) (regs : otp_ctrl_regs).

(** C5: when the lifecycle check passes and the SECRET2 digest query
    reports the partition locked, [provisioning_device_secrets_start] returns
    ok after these two calls only: no entropy operation, no flash or OTP
    write, and the peripherals are left as the query left them. *)
Theorem provisioning_device_secrets_start_locked (w w1 w2 : W) :
  h _ lc_ctrl_testutils_operational_state_check w = (OK_STATUS, w1) ->
  h _ (dif_otp_ctrl_is_digest_computed kDifOtpCtrlPartitionSecret2) w1
  = ((OK_STATUS, true), w2) ->
  run h (provisioning_device_secrets_start regs) w
  = {| out := Done OK_STATUS;
       trace := [ Ev lc_ctrl_testutils_operational_state_check OK_STATUS;
                  Ev (dif_otp_ctrl_is_digest_computed kDifOtpCtrlPartitionSecret2)
                     (OK_STATUS, true) ];
       final := w2 |}
  /\ entropy_ops (trace (run h (provisioning_device_secrets_start regs) w)) = []
  /\ existsb is_store_op (trace (run h (provisioning_device_secrets_start regs) w))
     = false.
Proof.
  intros H1 H2. unfold provisioning_device_secrets_start. cbn.
  rewrite H1. cbn. rewrite H2. cbn. repeat split.
Qed.

(** C6: when the lifecycle check fails, [provisioning_device_secrets_start]
    returns the error of the check and makes no other call: no entropy
    operation, no flash or OTP write, and the peripherals are left as the
    check left them. *)
Theorem provisioning_device_secrets_start_ineligible (w w1 : W) (e : Z) :
  h _ lc_ctrl_testutils_operational_state_check w = (ERROR e, w1) ->
  run h (provisioning_device_secrets_start regs) w
  = {| out := Done (ERROR e);
       trace := [ Ev lc_ctrl_testutils_operational_state_check (ERROR e) ];
       final := w1 |}
  /\ entropy_ops (trace (run h (provisioning_device_secrets_start regs) w)) = []
  /\ existsb is_store_op (trace (run h (provisioning_device_secrets_start regs) w))
     = false.
Proof.
  intros H. unfold provisioning_device_secrets_start. cbn.
  rewrite H. cbn. repeat split.
Qed.

(** C7: [provisioning_device_secrets_end] makes the digest query and
    nothing else; it returns ok exactly when the query succeeds and reports
    the partition locked, the query's own error when the query fails, and the
    internal error when the query succeeds and reports it unlocked. *)
Theorem provisioning_device_secrets_end_ok_iff (w : W) :
  let q := h _ (dif_otp_ctrl_is_digest_computed kDifOtpCtrlPartitionSecret2) w in
  let r := run h provisioning_device_secrets_end w in
  (exists s, out r = Done s
             /\ (s = OK_STATUS <-> fst q = (OK_STATUS, true))
             /\ (forall e is_locked, fst q = (ERROR e, is_locked) -> s = ERROR e)
             /\ (fst q = (OK_STATUS, false) -> s = INTERNAL))
  /\ trace r = [ Ev (dif_otp_ctrl_is_digest_computed kDifOtpCtrlPartitionSecret2)
                    (fst q) ]
  /\ final r = snd q.
Proof.
  unfold provisioning_device_secrets_end. cbn.
  destruct (h _ _ w) as [[s b] w1]. destruct s as [|e]; [destruct b|]; cbn.
  - split; [|split; reflexivity]. exists OK_STATUS.
    repeat split; intros; congruence.
  - split; [|split; reflexivity]. exists INTERNAL.
    repeat split; intros; try reflexivity; try discriminate; congruence.
  - split; [|split; reflexivity]. exists (ERROR e).
    repeat split; intros; try discriminate; congruence.
Qed.
End EntryPoints.

(** ** The simulated device meets the flash contract *)

Lemma sim_program_stores (d d' : device) (address part : Z) (data : list Z)
    (ty : dif_flash_ctrl_partition_type_t) (n : nat) :
  sim _ (flash_ctrl_testutils_erase_and_write_page address part data ty n) d
  = (OK_STATUS, d') ->
  sim_flash_contents d' address = data.
Proof.
  cbn. intros [= <-]. unfold sim_flash_contents. cbn.
  now rewrite Z.eqb_refl.
Qed.

Lemma sim_read_keeps (d d' : device) (address part : Z)
    (ty : dif_flash_ctrl_partition_type_t) (n : nat) (delay : Z)
    (reply : status_t * list Z) :
  sim _ (flash_ctrl_testutils_read address part ty n delay) d = (reply, d') ->
  sim_flash_contents d' = sim_flash_contents d.
Proof.
  cbn. now intros [= _ <-].
Qed.

(** ** Runs on the simulated device *)

(** The simulated device answers the six calls of a secret write. *)
Ltac sim_answers :=
  unfold secret_write_answers; do 5 eexists; repeat split; reflexivity.
Ltac secret_words_pass :=
  let i := fresh "i" in let Hi := fresh "Hi" in
  intros i Hi;
  do 8 (destruct i as [|i];
        [vm_compute; repeat split; first [discriminate | reflexivity]|]);
  exfalso; vm_compute in Hi; lia.
Ltac secret_word_fails :=
  let H := fresh "H" in
  intros H; vm_compute in H; destruct H as (H0 & H1 & H2);
  first [now apply H0 | now apply H1 | discriminate H2].

Lemma flash_ctrl_secret_write_ok_iff_witness :
  out (run sim (flash_ctrl_secret_write 1 0 0 8) (fresh_device words_1_to_8))
  = Done OK_STATUS
  /\ out (run sim (flash_ctrl_secret_write 1 0 0 8)
            (faulty_device words_1_to_8 [1]%Z)) = Done INTERNAL
  /\ out (run sim (flash_ctrl_secret_write 1 0 0 8)
            (faulty_device words_1_to_8 [0; 0; 0; 0; 0; 0; 0; 1]%Z)) = Done INTERNAL
  /\ out (run sim (flash_ctrl_secret_write 1 0 0 8)
            (fresh_device [1; 2; 3; 0; 5; 6; 7; 8]%Z)) = Done INTERNAL
  /\ out (run sim (flash_ctrl_secret_write 1 0 0 8)
            (fresh_device [1; 2; 3; 4; 5; 6; 7; 4294967295]%Z)) = Done INTERNAL.
Proof.
  split; [|split; [|split; [|split]]].
  - edestruct (proj1 (flash_ctrl_secret_write_ok_iff sim 1 0 0 8
                        (fresh_device words_1_to_8)))
      as (_ & _ & Hok & _); [sim_answers | vm_compute; lia |].
    apply Hok. secret_words_pass.
  - edestruct (proj1 (flash_ctrl_secret_write_ok_iff sim 1 0 0 8
                        (faulty_device words_1_to_8 [1]%Z)))
      as (_ & _ & _ & Hbad); [sim_answers | vm_compute; lia |].
    apply (Hbad 0); [lia | secret_word_fails].
  - edestruct (proj1 (flash_ctrl_secret_write_ok_iff sim 1 0 0 8
                        (faulty_device words_1_to_8 [0; 0; 0; 0; 0; 0; 0; 1]%Z)))
      as (_ & _ & _ & Hbad); [sim_answers | vm_compute; lia |].
    apply (Hbad 7); [lia | secret_word_fails].
  - edestruct (proj1 (flash_ctrl_secret_write_ok_iff sim 1 0 0 8
                        (fresh_device [1; 2; 3; 0; 5; 6; 7; 8]%Z)))
      as (_ & _ & _ & Hbad); [sim_answers | vm_compute; lia |].
    apply (Hbad 3); [lia | secret_word_fails].
  - edestruct (proj1 (flash_ctrl_secret_write_ok_iff sim 1 0 0 8
                        (fresh_device [1; 2; 3; 4; 5; 6; 7; 4294967295]%Z)))
      as (_ & _ & _ & Hbad); [sim_answers | vm_compute; lia |].
    apply (Hbad 7); [lia | secret_word_fails].
Defined.

Lemma flash_ctrl_secret_write_bounds_witness :
  out (run sim (flash_ctrl_secret_write 1 0 0 8) (fresh_device words_1_to_8))
  <> Undefined
  /\ out (run sim (flash_ctrl_secret_write 1 0 0 9) (fresh_device words_1_to_16))
     = Undefined.
Proof.
  destruct (flash_ctrl_secret_write_bounds sim) as (_ & Hin & Hout & _).
  split.
  - apply Hin. vm_compute. lia.
  - apply (Hout 1%Z 0%Z 0%Z 9 (fresh_device words_1_to_16)
             (fresh_device words_1_to_16)
             (fresh_device [10; 11; 12; 13; 14; 15; 16]%Z)
             [1; 2; 3; 4; 5; 6; 7; 8; 9]%Z).
    + vm_compute. lia.
    + reflexivity.
    + reflexivity.
Defined.

Lemma flash_ctrl_secret_write_no_rollback_witness :
  exists ws address rs,
    trace (run sim (flash_ctrl_secret_write 1 0 0 8)
             (fresh_device [0; 2; 3; 4; 5; 6; 7; 8]%Z))
    = secret_write_trace 1 0 0 8 ws address rs
    /\ (exists i, i < 8 /\ ~ secret_word_ok ws rs i)
    /\ out (run sim (flash_ctrl_secret_write 1 0 0 8)
              (fresh_device [0; 2; 3; 4; 5; 6; 7; 8]%Z)) = Done INTERNAL
    /\ sim_flash_contents
         (final (run sim (flash_ctrl_secret_write 1 0 0 8)
                   (fresh_device [0; 2; 3; 4; 5; 6; 7; 8]%Z))) address
       = words_stored 8 ws.
Proof.
  apply (flash_ctrl_secret_write_no_rollback sim sim_flash_contents
           sim_program_stores sim_read_keeps 1 0 0 8
           (fresh_device [0; 2; 3; 4; 5; 6; 7; 8]%Z)).
  - reflexivity.
  - vm_compute. discriminate.
Defined.

Lemma otp_partition_secret2_configure_lock_last_witness :
  exists ws0 ws1,
    trace (run sim (otp_partition_secret2_configure sample_regs)
             (fresh_device words_1_to_16))
    = configure_draws sample_regs ws0 ws1 ++ configure_writes sample_regs ws0 ws1
      ++ [lock_event OK_STATUS].
Proof.
  apply (proj1 (proj2 (otp_partition_secret2_configure_lock_last sim sample_regs
                         (fresh_device words_1_to_16)))).
  reflexivity.
Defined.

Lemma otp_partition_secret2_configure_entropy_order_witness :
  entropy_ops (trace (run sim (otp_partition_secret2_configure sample_regs)
                        (fresh_device words_1_to_16)))
  = configure_entropy_ops sample_regs.
Proof.
  apply (proj1 (proj2 (otp_partition_secret2_configure_entropy_order sim sample_regs
                         (fresh_device words_1_to_16)))).
  - vm_compute. discriminate.
  - reflexivity.
Defined.

Lemma provisioning_device_secrets_start_locked_witness :
  run sim (provisioning_device_secrets_start sample_regs) locked_device
  = {| out := Done OK_STATUS;
       trace := [ Ev lc_ctrl_testutils_operational_state_check OK_STATUS;
                  Ev (dif_otp_ctrl_is_digest_computed kDifOtpCtrlPartitionSecret2)
                     (OK_STATUS, true) ];
       final := locked_device |}.
Proof.
  apply (provisioning_device_secrets_start_locked sim sample_regs
           locked_device locked_device locked_device); reflexivity.
Defined.

Lemma provisioning_device_secrets_start_ineligible_witness :
  run sim (provisioning_device_secrets_start sample_regs) ineligible_device
  = {| out := Done (ERROR kFailedPrecondition);
       trace := [ Ev lc_ctrl_testutils_operational_state_check
                     (ERROR kFailedPrecondition) ];
       final := ineligible_device |}.
Proof.
  apply (provisioning_device_secrets_start_ineligible sim sample_regs
           ineligible_device ineligible_device kFailedPrecondition); reflexivity.
Defined.

Lemma provisioning_device_secrets_end_ok_iff_witness :
  exists s, out (run sim provisioning_device_secrets_end locked_device) = Done s
            /\ s = OK_STATUS.
Proof.
  destruct (provisioning_device_secrets_end_ok_iff sim locked_device)
    as ((s & Hs & Hok & _) & _).
  exists s. split; [exact Hs|]. apply Hok. reflexivity.
Defined.

(** ** Scenarios *)

(** Distinct, sound shares: the configurator succeeds and the digest query
    turns from false to true. *)
Example configure_locks_partition :
  secret2_digest (fresh_device words_1_to_16) = false
  /\ out (run sim (otp_partition_secret2_configure sample_regs)
            (fresh_device words_1_to_16)) = Done OK_STATUS
  /\ secret2_digest (final (run sim (otp_partition_secret2_configure sample_regs)
                              (fresh_device words_1_to_16))) = true.
Proof. repeat split. Qed.

(** Identical shares: the configurator fails, nothing is written and the
    partition stays unlocked. *)
Example configure_rejects_equal_shares :
  let d := fresh_device (words_1_to_8 ++ words_1_to_8) in
  out (run sim (otp_partition_secret2_configure sample_regs) d) = Done INTERNAL
  /\ otp_secret2 (final (run sim (otp_partition_secret2_configure sample_regs) d)) = []
  /\ secret2_digest (final (run sim (otp_partition_secret2_configure sample_regs) d))
     = false.
Proof. repeat split. Qed.

(** A whole provisioning run, then a second one on the provisioned device. *)
Example start_twice :
  let d := fresh_device (map Z.of_nat (seq 1 32)) in
  let r := run sim (provisioning_device_secrets_start sample_regs) d in
  out r = Done OK_STATUS
  /\ length (trace r) = 23
  /\ run sim (provisioning_device_secrets_start sample_regs) (final r)
     = {| out := Done OK_STATUS;
          trace := [ Ev lc_ctrl_testutils_operational_state_check OK_STATUS;
                     Ev (dif_otp_ctrl_is_digest_computed kDifOtpCtrlPartitionSecret2)
                        (OK_STATUS, true) ];
          final := final r |}
  /\ out (run sim provisioning_device_secrets_end (final r)) = Done OK_STATUS.
Proof. repeat split. Qed.

(** ** More on the share validator *)

Lemma shares_check_in_bounds (A B : list Z) (len : nat) :
  len <= length A -> len <= length B ->
  shares_check A B len
  = Some (if existsb (share_word_flagged A B) (seq 0 len) then INTERNAL else OK_STATUS).
Proof.
  intros HA HB. unfold shares_check.
  rewrite shares_check_loop_spec by lia. reflexivity.
Qed.

Lemma shares_check_loop_out_of_bounds (A B : list Z) (n i : nat) (fe : bool) :
  0 < n -> length A < i + n \/ length B < i + n ->
  shares_check_loop A B i n fe = None.
Proof.
  revert i fe. induction n as [|n IH]; intros i fe Hn Hlen; [lia|].
  simpl. destruct (A !! i) as [a|] eqn:EA; [|reflexivity].
  destruct (B !! i) as [b|] eqn:EB; [|reflexivity].
  destruct (B !! 0) as [b0|]; [|reflexivity].
  apply lookup_lt_Some in EA. apply lookup_lt_Some in EB.
  apply IH; lia.
Qed.

Lemma no_flag_at (A B : list Z) (len i : nat) :
  existsb (share_word_flagged A B) (seq 0 len) = false -> i < len ->
  share_word_flagged A B i = false.
Proof.
  intros H Hi. destruct (share_word_flagged A B i) eqn:E; [|reflexivity].
  rewrite <- H. symmetry. apply existsb_exists.
  exists i. split; [apply in_seq; lia | exact E].
Qed.

Lemma zero_word_search (B : list Z) (len : nat) :
  (forall i, i < len -> nth i B 0%Z <> 0%Z)
  \/ (exists i, i < len /\ nth i B 0%Z = 0%Z).
Proof.
  induction len as [|len [IH|(i & Hi & Hz)]].
  - left. intros i Hi. lia.
  - destruct (Z.eq_dec (nth len B 0%Z) 0%Z) as [Hz|Hnz].
    + right. exists len. split; [lia | exact Hz].
    + left. intros i Hi. destruct (Nat.eq_dec i len) as [->|Hne];
        [exact Hnz | apply IH; lia].
  - right. exists i. split; [lia | exact Hz].
Qed.

(** X1: shares that meet the symmetric rule are never rejected. *)
Theorem shares_check_accepts_valid (A B : list Z) (len : nat) :
  length A = len -> length B = len ->
  symmetric_rule A B ->
  shares_check A B len = Some OK_STATUS.
Proof.
  intros HA HB Hsym. rewrite shares_check_in_bounds by lia.
  destruct (existsb _ _) eqn:E; [|reflexivity]. exfalso.
  apply existsb_exists in E. destruct E as (i & Hi & Hf).
  apply in_seq in Hi. apply share_word_flagged_iff in Hf.
  destruct (Hsym i ltac:(lia)) as (H1 & H2 & H3 & H4 & H5).
  destruct (Hsym 0 ltac:(lia)) as (_ & _ & _ & H6 & _).
  intuition congruence.
Qed.

Lemma shares_check_accepts_valid_witness :
  shares_check [1; 2]%Z [3; 4]%Z 2 = Some OK_STATUS.
Proof.
  apply shares_check_accepts_valid; [reflexivity | reflexivity |].
  intros i Hi. destruct i as [|[|i]]; simpl in *; [| |lia];
    repeat split; discriminate.
Defined.

(** X2: what acceptance guarantees.  Accepted shares differ in every word,
    the first share has no word 0 or all-ones, the second has no all-ones
    word and its word 0 is not 0; accepted shares that break the symmetric
    rule have a zero word in the second share at an index of at least 1. *)
Theorem shares_check_accepted (A B : list Z) (len : nat) :
  length A = len -> length B = len ->
  shares_check A B len = Some OK_STATUS ->
  (forall i, i < len ->
     nth i A 0%Z <> nth i B 0%Z
     /\ nth i A 0%Z <> 0%Z /\ nth i A 0%Z <> UINT64_MAX
     /\ nth i B 0%Z <> UINT64_MAX /\ nth 0 B 0%Z <> 0%Z)
  /\ (~ symmetric_rule A B ->
      exists i, 1 <= i < len /\ nth i B 0%Z = 0%Z).
Proof.
  intros HA HB. rewrite shares_check_in_bounds by lia.
  destruct (existsb _ _) eqn:E; [discriminate|]. intros _.
  assert (Ok : forall i, i < len ->
     nth i A 0%Z <> nth i B 0%Z
     /\ nth i A 0%Z <> 0%Z /\ nth i A 0%Z <> UINT64_MAX
     /\ nth i B 0%Z <> UINT64_MAX /\ nth 0 B 0%Z <> 0%Z).
  { intros i Hi. pose proof (no_flag_at A B len i E Hi) as Hf.
    unfold share_word_flagged in Hf.
    rewrite !orb_false_iff, !Z.eqb_neq in Hf. tauto. }
  split; [exact Ok|]. intros Hnot.
  destruct (zero_word_search B len) as [Hnz|(i & Hi & Hz)].
  - exfalso. apply Hnot. intros i Hi. rewrite HA in Hi.
    destruct (Ok i Hi) as (H1 & H2 & H3 & H4 & _).
    repeat split; try assumption. now apply Hnz.
  - exists i. split; [|exact Hz]. destruct i as [|i]; [|lia].
    exfalso. destruct (Ok 0 Hi) as (_ & _ & _ & _ & H0). contradiction.
Qed.

Lemma shares_check_accepted_witness :
  exists i, 1 <= i < 2 /\ nth i [3; 0]%Z 0%Z = 0%Z.
Proof.
  apply (proj2 (shares_check_accepted [1; 2]%Z [3; 0]%Z 2 eq_refl eq_refl eq_refl)).
  intros H. destruct (H 1 ltac:(simpl; lia)) as (_ & _ & _ & Hz & _).
  now apply Hz.
Defined.

(** X3: the validator reads inside both buffers exactly when [len] words fit
    in each (or [len] is 0, when it reads nothing and returns ok). *)
Theorem shares_check_bounds (A B : list Z) (len : nat) :
  (len <= length A /\ len <= length B -> shares_check A B len <> None)
  /\ (0 < len -> length A < len \/ length B < len -> shares_check A B len = None)
  /\ shares_check A B 0 = Some OK_STATUS.
Proof.
  split; [|split].
  - intros [HA HB]. rewrite shares_check_in_bounds by lia. discriminate.
  - intros Hlen H. unfold shares_check.
    now rewrite shares_check_loop_out_of_bounds.
  - reflexivity.
Qed.

Lemma shares_check_bounds_witness :
  shares_check [1; 2]%Z [3; 4]%Z 2 <> None
  /\ shares_check [1; 2]%Z [3]%Z 2 = None.
Proof.
  split.
  - apply (proj1 (shares_check_bounds [1; 2]%Z [3; 4]%Z 2)). simpl. lia.
  - apply (proj1 (proj2 (shares_check_bounds [1; 2]%Z [3]%Z 2)));
      [lia | right; simpl; lia].
Defined.

(** X4: a share is never accepted against itself. *)
Theorem shares_check_rejects_equal (A : list Z) (len : nat) :
  0 < len -> len <= length A ->
  shares_check A A len = Some INTERNAL.
Proof.
  intros Hpos Hlen. rewrite shares_check_in_bounds by lia.
  destruct len as [|len]; [lia|]. cbn [seq existsb].
  unfold share_word_flagged at 1. now rewrite Z.eqb_refl.
Qed.

Lemma shares_check_rejects_equal_witness :
  shares_check [5; 6; 7]%Z [5; 6; 7]%Z 2 = Some INTERNAL.
Proof.
  apply shares_check_rejects_equal; simpl; lia.
Defined.

(** ** Word ranges *)

Lemma words_stored_uint32 (len : nat) (ws : list Z) :
  Forall is_uint32 (words_stored len ws).
Proof.
  unfold words_stored. apply List.Forall_forall. intros x Hx.
  apply in_map_iff in Hx. destruct Hx as (i & <- & _).
  unfold is_uint32, to_uint32. apply Z.mod_pos_bound. lia.
Qed.

Lemma lor_shiftl_32 (lo hi : Z) :
  is_uint32 lo -> (0 <= hi)%Z ->
  Z.lor lo (Z.shiftl hi 32) = (lo + hi * 2 ^ 32)%Z.
Proof.
  intros [Hlo0 Hlo] Hhi.
  rewrite <- (Z.shiftl_mul_pow2 hi 32) by lia.
  rewrite <- Z.add_lor_land.
  replace (Z.land lo (Z.shiftl hi 32)) with 0%Z; [lia|].
  symmetry. apply Z.bits_inj'. intros n Hn.
  rewrite Z.land_spec, Z.bits_0.
  destruct (Z.lt_ge_cases n 32) as [Hlt|Hge].
  - rewrite (Z.shiftl_spec_low hi 32 n) by lia. apply andb_false_r.
  - replace lo with (lo mod 2 ^ 32)%Z by (apply Z.mod_small; lia).
    rewrite Z.mod_pow2_bits_high by lia. reflexivity.
Qed.

Lemma as_uint64_uint64 (l : list Z) :
  Forall is_uint32 l -> Forall is_uint64 (as_uint64 l).
Proof.
  revert l. fix IH 1. intros [|lo [|hi rest]] H; simpl; try constructor.
  - inversion H as [|? ? Hlo H']. inversion H' as [|? ? Hhi H'']. subst.
    rewrite lor_shiftl_32 by (try assumption; apply Hhi).
    unfold is_uint32, is_uint64 in *. lia.
  - apply IH. inversion H as [|? ? _ H']. now inversion H'.
Qed.

(** ** More on the secret writer *)

Ltac secret_write_cases h len stop :=
  unfold flash_ctrl_secret_write; cbn;
  call_status h as w1 E1; [|stop];
  call_reply h as ds w2 E2; [|stop];
  destruct (le_gt_dec len kCreatorSeedSizeInWords) as [Hlen|Hlen];
  [rewrite buf_fill_Some by assumption
  |rewrite buf_fill_None by assumption; cbn; stop];
  cbn;
  call_status h as w3 E3; [|stop];
  call_reply h as addr w4 E4; [|stop];
  rewrite buf_read_filled; cbn;
  call_status h as w5 E5; [|stop];
  call_reply h as bs w6 E6; [|stop];
  rewrite buf_fill_Some by assumption; cbn;
  rewrite secret_check_loop_spec by lia; cbn.

Section SecretWriterRuns.
Context {W : Type} (h : handler W).

Lemma run_try_ret (p : prog status_t) (w : W) :
  run h (TRY p ;; Ret OK_STATUS) w = run h p w.
Proof.
  rewrite run_bind. destruct (run h p w) as [[[|e]|] tr w']; cbn;
    now rewrite ?app_nil_r.
Qed.

Lemma secret_write_run_facts page bank part len w :
  fail_stop (trace (run h (flash_ctrl_secret_write page bank part len) w))
            (out (run h (flash_ctrl_secret_write page bank part len) w))
  /\ existsb is_lock
       (trace (run h (flash_ctrl_secret_write page bank part len) w)) = false
  /\ existsb is_otp_write
       (trace (run h (flash_ctrl_secret_write page bank part len) w)) = false
  /\ (out (run h (flash_ctrl_secret_write page bank part len) w) = Done OK_STATUS ->
      exists ws address rs,
        trace (run h (flash_ctrl_secret_write page bank part len) w)
        = secret_write_trace page bank part len ws address rs
        /\ forall i, i < len -> secret_word_ok ws rs i).
Proof.
  secret_write_cases h len ltac:(repeat split; discriminate).
  repeat split. intros Hok. exists ds, addr, bs. split; [reflexivity|].
  apply secret_words_checked.
  destruct (existsb (secret_word_bad ds bs) (seq 0 len)); [discriminate | reflexivity].
Qed.

(** X5: a secret write stops at its first failing driver call and returns
    that call's status; when every call succeeds it returns ok or the
    internal error of its final check. *)
Theorem flash_ctrl_secret_write_fail_stop page bank part len w :
  fail_stop (trace (run h (flash_ctrl_secret_write page bank part len) w))
            (out (run h (flash_ctrl_secret_write page bank part len) w))
  /\ (forallb event_ok
        (trace (run h (flash_ctrl_secret_write page bank part len) w)) = true ->
      len <= kCreatorSeedSizeInWords ->
      out (run h (flash_ctrl_secret_write page bank part len) w) = Done OK_STATUS
      \/ out (run h (flash_ctrl_secret_write page bank part len) w) = Done INTERNAL).
Proof.
  split; [apply secret_write_run_facts|].
  secret_write_cases h len
    ltac:(first [discriminate
                |intros _ Hle; exfalso; apply (Nat.lt_irrefl len);
                 eapply Nat.le_lt_trans; [exact Hle | assumption]]).
  intros _ _. destruct (existsb _ _); [right | left]; reflexivity.
Qed.

(** X6: whatever a secret write programs into the flash is the [len] words
    it drew, as 32-bit words, at the address the region setup returned, and
    after the entropy instance was torn down. *)
Theorem flash_ctrl_secret_write_programs_draw page bank part len w :
  existsb is_flash_program
    (trace (run h (flash_ctrl_secret_write page bank part len) w)) = true ->
  exists ws address s rest,
    trace (run h (flash_ctrl_secret_write page bank part len) w)
    = [ Ev (entropy_csrng_instantiate kHardenedBoolFalse) OK_STATUS;
        Ev (entropy_csrng_generate len) (OK_STATUS, ws);
        Ev entropy_csrng_uninstantiate OK_STATUS;
        Ev (flash_ctrl_testutils_info_region_scrambled_setup page bank part)
           (OK_STATUS, address);
        Ev (flash_ctrl_testutils_erase_and_write_page address part
              (words_stored len ws) kDifFlashCtrlPartitionTypeInfo len) s ]
      ++ rest
    /\ length (words_stored len ws) = len
    /\ Forall is_uint32 (words_stored len ws)
    /\ existsb is_flash_program rest = false.
Proof.
  unfold flash_ctrl_secret_write. cbn.
  call_status h as w1 E1; [|discriminate].
  call_reply h as ds w2 E2; [|discriminate].
  destruct (le_gt_dec len kCreatorSeedSizeInWords) as [Hlen|Hlen];
    [|rewrite buf_fill_None by exact Hlen; cbn; discriminate].
  rewrite buf_fill_Some by exact Hlen. cbn.
  call_status h as w3 E3; [|discriminate].
  call_reply h as addr w4 E4; [|discriminate].
  rewrite buf_read_filled. cbn.
  assert (Data : length (words_stored len ds) = len
                 /\ Forall is_uint32 (words_stored len ds))
    by (split; [apply length_words_stored | apply words_stored_uint32]).
  call_status h as w5 E5.
  2:{ intros _. exists ds, addr, (ERROR code), []. now repeat split. }
  call_reply h as bs w6 E6.
  2:{ intros _. eexists ds, addr, OK_STATUS, [_]. now repeat split. }
  rewrite buf_fill_Some by exact Hlen. cbn.
  rewrite secret_check_loop_spec by lia. cbn.
  intros _. eexists ds, addr, OK_STATUS, [_]. now repeat split.
Qed.
End SecretWriterRuns.

(** ** More on the configurator *)

Ltac configure_cases h stop :=
  unfold otp_partition_secret2_configure; cbn;
  call_status h as w1 E1; [|stop];
  call_reply h as d0 w2 E2; [|stop];
  match goal with
  | |- context [buf_fill ?b ?n ?d] =>
      let F := fresh "F" in
      destruct (buf_fill b n d) as [share0|] eqn:F; cbn; [|stop];
      apply share_fill in F; destruct F as [-> Hsize]
  end;
  call_status h as w3 E3; [|stop];
  call_reply h as d1 w4 E4; [|stop];
  match goal with
  | |- context [buf_fill ?b ?n ?d] =>
      let F := fresh "F" in
      destruct (buf_fill b n d) as [share1|] eqn:F; cbn; [|stop];
      apply share_fill in F; destruct F as [-> _]
  end;
  call_status h as w5 E5; [|stop];
  repeat match goal with
  | |- context [as_uint64 (words_stored (kRootKeyShareSizeIn32BitWords ?r) ?d)] =>
      fold (root_key_share r d)
  end;
  rewrite !buf_read_all by (now apply length_root_key_share);
  match goal with
  | Hs : kRootKeyShareSizeIn32BitWords _ = _
    |- context [shares_check (root_key_share ?r ?a) (root_key_share ?r ?b) _] =>
      let Chk := fresh "Chk" in
      destruct (shares_check_root_key r a b Hs) as [Chk|Chk]; rewrite Chk; cbn;
      [|stop]
  end;
  call_status h as w6 E6; [|stop];
  call_status h as w7 E7; [|stop].

Lemma share_size_fits (regs : otp_ctrl_regs) :
  OTP_CTRL_PARAM_CREATOR_ROOT_KEY_SHARE0_SIZE regs mod 8 < 4 ->
  kRootKeyShareSizeIn32BitWords regs = 2 * kRootKeyShareSizeIn64BitWords regs.
Proof.
  unfold kRootKeyShareSizeIn32BitWords, kRootKeyShareSizeIn64BitWords,
    kRootKeyShareSizeInBytes.
  intros H.
  pose proof (Nat.div_mod_eq (OTP_CTRL_PARAM_CREATOR_ROOT_KEY_SHARE0_SIZE regs) 8).
  pose proof (Nat.div_mod_eq (OTP_CTRL_PARAM_CREATOR_ROOT_KEY_SHARE0_SIZE regs) 4).
  pose proof (Nat.mod_upper_bound (OTP_CTRL_PARAM_CREATOR_ROOT_KEY_SHARE0_SIZE regs) 8).
  pose proof (Nat.mod_upper_bound (OTP_CTRL_PARAM_CREATOR_ROOT_KEY_SHARE0_SIZE regs) 4).
  lia.
Qed.

Lemma share_size_overruns (regs : otp_ctrl_regs) :
  4 <= OTP_CTRL_PARAM_CREATOR_ROOT_KEY_SHARE0_SIZE regs mod 8 ->
  2 * kRootKeyShareSizeIn64BitWords regs < kRootKeyShareSizeIn32BitWords regs.
Proof.
  unfold kRootKeyShareSizeIn32BitWords, kRootKeyShareSizeIn64BitWords,
    kRootKeyShareSizeInBytes.
  intros H.
  pose proof (Nat.div_mod_eq (OTP_CTRL_PARAM_CREATOR_ROOT_KEY_SHARE0_SIZE regs) 8).
  pose proof (Nat.div_mod_eq (OTP_CTRL_PARAM_CREATOR_ROOT_KEY_SHARE0_SIZE regs) 4).
  pose proof (Nat.mod_upper_bound (OTP_CTRL_PARAM_CREATOR_ROOT_KEY_SHARE0_SIZE regs) 8).
  pose proof (Nat.mod_upper_bound (OTP_CTRL_PARAM_CREATOR_ROOT_KEY_SHARE0_SIZE regs) 4).
  lia.
Qed.

Lemma root_key_share_uint64 (regs : otp_ctrl_regs) (ws : list Z) :
  Forall is_uint64 (root_key_share regs ws).
Proof. apply as_uint64_uint64, words_stored_uint32. Qed.

Ltac otp_writes_checked :=
  split;
  [repeat match goal with
          | |- Forall _ [] => constructor
          | |- Forall _ (_ :: _) =>
              constructor;
              [cbn; first [discriminate
                          |intros _; split;
                           [now apply length_root_key_share
                           |apply root_key_share_uint64]]|]
          end
  |cbn; lia].

Section ConfiguratorRuns.
Context {W : Type} (h : handler W) (regs : otp_ctrl_regs).

Lemma configure_run_facts w :
  fail_stop (trace (run h (otp_partition_secret2_configure regs) w))
            (out (run h (otp_partition_secret2_configure regs) w))
  /\ existsb is_flash_program
       (trace (run h (otp_partition_secret2_configure regs) w)) = false
  /\ (existsb is_lock (trace (run h (otp_partition_secret2_configure regs) w)) = true ->
      exists d0 d1 s wl,
        trace (run h (otp_partition_secret2_configure regs) w)
        = configure_draws regs d0 d1 ++ configure_writes regs d0 d1 ++ [lock_event s]
        /\ shares_check (root_key_share regs d0) (root_key_share regs d1)
             (kRootKeyShareSizeIn64BitWords regs) = Some OK_STATUS
        /\ out (run h (otp_partition_secret2_configure regs) w) = Done s
        /\ h _ (otp_ctrl_testutils_lock_partition kDifOtpCtrlPartitionSecret2 0%Z) wl
           = (s, final (run h (otp_partition_secret2_configure regs) w)))
  /\ (out (run h (otp_partition_secret2_configure regs) w) = Done OK_STATUS ->
      existsb is_lock (trace (run h (otp_partition_secret2_configure regs) w)) = true).
Proof.
  configure_cases h ltac:(repeat split; discriminate).
  destruct (h _ (otp_ctrl_testutils_lock_partition kDifOtpCtrlPartitionSecret2 0%Z) w7)
    as [s w8] eqn:E8.
  assert (Shape : exists d0' d1' s' wl,
    configure_draws regs d0 d1 ++ configure_writes regs d0 d1 ++ [lock_event s]
    = configure_draws regs d0' d1' ++ configure_writes regs d0' d1' ++ [lock_event s']
    /\ shares_check (root_key_share regs d0') (root_key_share regs d1')
         (kRootKeyShareSizeIn64BitWords regs) = Some OK_STATUS
    /\ Done s = Done s'
    /\ h _ (otp_ctrl_testutils_lock_partition kDifOtpCtrlPartitionSecret2 0%Z) wl
       = (s', w8)).
  { exists d0, d1, s, w7. now repeat split. }
  destruct s; cbn; repeat split; try discriminate; intros _; exact Shape.
Qed.

Lemma configure_entropy_prefix w :
  entropy_ops (trace (run h (otp_partition_secret2_configure regs) w))
    `prefix_of` configure_entropy_ops regs.
Proof.
  unfold configure_entropy_ops.
  configure_cases h ltac:(eexists; reflexivity).
  call_status h as w8 E8; now exists [].
Qed.

(** X7: the configurator stops at its first failing driver call and returns
    that call's status; it never programs the flash. *)
Theorem otp_partition_secret2_configure_fail_stop w :
  fail_stop (trace (run h (otp_partition_secret2_configure regs) w))
            (out (run h (otp_partition_secret2_configure regs) w))
  /\ existsb is_flash_program
       (trace (run h (otp_partition_secret2_configure regs) w)) = false.
Proof.
  split; apply configure_run_facts.
Qed.

Lemma configure_defined w :
  OTP_CTRL_PARAM_CREATOR_ROOT_KEY_SHARE0_SIZE regs mod 8 < 4 ->
  out (run h (otp_partition_secret2_configure regs) w) <> Undefined.
Proof.
  intros Hfit. apply share_size_fits in Hfit.
  assert (Fill : forall ws,
    buf_fill (uninitialized (2 * kRootKeyShareSizeIn64BitWords regs))
      (kRootKeyShareSizeIn32BitWords regs) ws <> None).
  { intros ws. rewrite buf_fill_Some; [discriminate|].
    unfold uninitialized. rewrite repeat_length. lia. }
  configure_cases h
    ltac:(first [discriminate
                |match goal with
                 | F : buf_fill _ _ _ = None |- _ => exfalso; exact (Fill _ F)
                 end]).
  call_status h as w8 E8; discriminate.
Qed.

(** X8: the share buffers of the configurator hold
    [kRootKeyShareSizeIn64BitWords] 64-bit words and each draw stores
    [kRootKeyShareSizeIn32BitWords] 32-bit words: no run leaves them when the
    share size leaves a remainder below 4 modulo 8 (in particular when it is
    a multiple of 8); with a remainder of 4 or more every run whose first
    draw succeeds overruns [share0]. *)
Theorem otp_partition_secret2_configure_bounds :
  (OTP_CTRL_PARAM_CREATOR_ROOT_KEY_SHARE0_SIZE regs mod 8 < 4 ->
   forall w, out (run h (otp_partition_secret2_configure regs) w) <> Undefined)
  /\ (4 <= OTP_CTRL_PARAM_CREATOR_ROOT_KEY_SHARE0_SIZE regs mod 8 ->
      forall w w1 w2 ws,
        h _ (entropy_csrng_instantiate kHardenedBoolFalse) w = (OK_STATUS, w1) ->
        h _ (entropy_csrng_generate (kRootKeyShareSizeIn32BitWords regs)) w1
        = ((OK_STATUS, ws), w2) ->
        out (run h (otp_partition_secret2_configure regs) w) = Undefined).
Proof.
  split.
  - intros Hfit w. now apply configure_defined.
  - intros Hover w w1 w2 ws E1 E2. apply share_size_overruns in Hover.
    unfold otp_partition_secret2_configure. cbn. rewrite E1. cbn. rewrite E2. cbn.
    rewrite buf_fill_None; [reflexivity|].
    unfold uninitialized. rewrite repeat_length. exact Hover.
Qed.

(** X9: every OTP write of the configurator carries
    [kRootKeyShareSizeIn64BitWords] words, each a 64-bit value, and a run makes
    at most two of them. *)
Theorem otp_partition_secret2_configure_writes_uint64 w :
  Forall (fun e => is_otp_write e = true ->
                   length (event_data e) = kRootKeyShareSizeIn64BitWords regs
                   /\ Forall is_uint64 (event_data e))
         (trace (run h (otp_partition_secret2_configure regs) w))
  /\ length (List.filter is_otp_write
               (trace (run h (otp_partition_secret2_configure regs) w))) <= 2.
Proof.
  configure_cases h ltac:(otp_writes_checked).
  call_status h as w8 E8; otp_writes_checked.
Qed.
End ConfiguratorRuns.

(** ** Whole provisioning runs *)

Section Composition.
Context {W : Type} (h : handler W).

Lemma run_TRY (p k : prog status_t) (w : W) :
  run h (TRY p ;; k) w = seq_runs (run h p w) (run h k).
Proof.
  rewrite run_bind. unfold seq_runs.
  destruct (run h p w) as [[[|e]|] tr w']; cbn; try reflexivity.
  now rewrite app_nil_r.
Qed.

Lemma fail_stop_all_ok (tr : list event) (o : outcome status_t) :
  forallb event_ok tr = true -> fail_stop tr o.
Proof.
  induction tr as [|e tr IH]; cbn; [trivial|].
  destruct (event_ok e); cbn; [exact IH | discriminate].
Qed.

Lemma fail_stop_ok (tr : list event) :
  fail_stop tr (Done OK_STATUS) -> forallb event_ok tr = true.
Proof.
  induction tr as [|e tr IH]; cbn; [trivial|].
  unfold event_ok at 1 2. destruct (event_status e) eqn:E; cbn.
  - exact IH.
  - intros [_ H]. discriminate.
Qed.

Lemma fail_stop_app (tr1 tr2 : list event) (o : outcome status_t) :
  forallb event_ok tr1 = true -> fail_stop tr2 o -> fail_stop (tr1 ++ tr2) o.
Proof.
  induction tr1 as [|e tr1 IH]; cbn; [trivial|].
  destruct (event_ok e); cbn; [exact IH | discriminate].
Qed.

Lemma fail_stop_seq (r : run_result W status_t)
    (next : W -> run_result W status_t) :
  fail_stop (trace r) (out r) ->
  (forall w, fail_stop (trace (next w)) (out (next w))) ->
  fail_stop (trace (seq_runs r next)) (out (seq_runs r next)).
Proof.
  intros Hr Hnext. unfold seq_runs.
  destruct (out r) as [[|e]|] eqn:O; try (rewrite O; exact Hr).
  cbn. apply fail_stop_app; [|apply Hnext].
  apply fail_stop_ok. exact Hr.
Qed.

Lemma entropy_ops_app (tr1 tr2 : list event) :
  entropy_ops (tr1 ++ tr2) = entropy_ops tr1 ++ entropy_ops tr2.
Proof.
  induction tr1 as [|[X c x] tr1 IH]; cbn; [reflexivity|].
  destruct (entropy_op_of c); cbn; now rewrite IH.
Qed.

Lemma entropy_prefix_seq (r : run_result W status_t)
    (next : W -> run_result W status_t) (ops1 ops2 : list entropy_op) :
  entropy_ops (trace r) `prefix_of` ops1 ->
  (out r = Done OK_STATUS -> entropy_ops (trace r) = ops1) ->
  (forall w, entropy_ops (trace (next w)) `prefix_of` ops2) ->
  entropy_ops (trace (seq_runs r next)) `prefix_of` ops1 ++ ops2.
Proof.
  intros Hp Hfull Hnext. unfold seq_runs.
  destruct (out r) as [[|e]|] eqn:O; try (now apply prefix_app_r).
  cbn. rewrite entropy_ops_app, Hfull by reflexivity.
  apply prefix_app, Hnext.
Qed.

Lemma seq_runs_ext (r : run_result W status_t)
    (next next' : W -> run_result W status_t) :
  (forall w, next w = next' w) -> seq_runs r next = seq_runs r next'.
Proof.
  intros H. unfold seq_runs. destruct (out r) as [[|e]|]; try reflexivity.
  now rewrite H.
Qed.

Lemma defined_seq (r : run_result W status_t)
    (next : W -> run_result W status_t) :
  out r <> Undefined -> (forall w, out (next w) <> Undefined) ->
  out (seq_runs r next) <> Undefined.
Proof.
  intros Hr Hnext. unfold seq_runs.
  destruct (out r) as [[|e]|] eqn:O; cbn; try (now rewrite O). apply Hnext.
Qed.
End Composition.

Section Provisioning.
Context {W : Type} (h : handler W) (regs : otp_ctrl_regs).

#[local] Arguments flash_ctrl_secret_write : simpl never.
#[local] Arguments flash_ctrl_creator_secret_write : simpl never.
#[local] Arguments flash_ctrl_owner_secret_write : simpl never.
#[local] Arguments otp_partition_secret2_configure : simpl never.

Lemma start_run_secrets (w w1 w2 w3 : W) :
  h _ lc_ctrl_testutils_operational_state_check w = (OK_STATUS, w1) ->
  h _ (dif_otp_ctrl_is_digest_computed kDifOtpCtrlPartitionSecret2) w1
  = ((OK_STATUS, false), w2) ->
  h _ entropy_complex_init w2 = (OK_STATUS, w3) ->
  run h (provisioning_device_secrets_start regs) w
  = {| out := out (secrets_run h regs w3);
       trace := start_prologue ++ trace (secrets_run h regs w3);
       final := final (secrets_run h regs w3) |}.
Proof.
  intros E1 E2 E3. unfold provisioning_device_secrets_start. cbn.
  rewrite E1. cbn. rewrite E2. cbn. rewrite E3. cbn.
  rewrite run_TRY. unfold flash_ctrl_creator_secret_write at 1.
  rewrite run_try_ret.
  match goal with
  | |- context [seq_runs ?r ?n] => assert (EQ : seq_runs r n = secrets_run h regs w3)
  end.
  { unfold secrets_run. apply seq_runs_ext.
    intros w4. rewrite run_TRY. unfold flash_ctrl_owner_secret_write at 1.
    rewrite run_try_ret. apply seq_runs_ext.
    intros w5. apply run_TRY. }
  rewrite EQ. reflexivity.
Qed.

Lemma secrets_run_fail_stop (w : W) :
  fail_stop (trace (secrets_run h regs w)) (out (secrets_run h regs w)).
Proof.
  unfold secrets_run.
  apply fail_stop_seq; [apply secret_write_run_facts|]. intros w1.
  apply fail_stop_seq; [apply secret_write_run_facts|]. intros w2.
  apply fail_stop_seq; [apply configure_run_facts|]. intros w3.
  exact I.
Qed.

Lemma secret_write_ok_entropy page bank part len (w : W) :
  out (run h (flash_ctrl_secret_write page bank part len) w) = Done OK_STATUS ->
  entropy_ops (trace (run h (flash_ctrl_secret_write page bank part len) w))
  = secret_write_entropy_ops len.
Proof.
  intros Hok. apply secret_write_run_facts in Hok.
  destruct Hok as (ws & a & rs & -> & _). reflexivity.
Qed.

Lemma secrets_run_entropy_prefix (w : W) :
  entropy_ops (trace (secrets_run h regs w))
    `prefix_of` secret_write_entropy_ops kCreatorSeedSizeInWords
                ++ secret_write_entropy_ops kOwnerSeedSizeInWords
                ++ configure_entropy_ops regs.
Proof.
  unfold secrets_run.
  apply entropy_prefix_seq;
    [apply flash_ctrl_secret_write_entropy_prefix | apply secret_write_ok_entropy |].
  intros w1.
  apply entropy_prefix_seq;
    [apply flash_ctrl_secret_write_entropy_prefix | apply secret_write_ok_entropy |].
  intros w2. unfold seq_runs.
  destruct (out (run h (otp_partition_secret2_configure regs) w2)) as [[|e]|];
    cbn; rewrite ?app_nil_r;
    apply configure_entropy_prefix.
Qed.

Lemma secrets_run_defined (w : W) :
  OTP_CTRL_PARAM_CREATOR_ROOT_KEY_SHARE0_SIZE regs mod 8 < 4 ->
  out (secrets_run h regs w) <> Undefined.
Proof.
  intros Hfit. unfold secrets_run.
  apply defined_seq; [now apply flash_ctrl_secret_write_defined|]. intros w1.
  apply defined_seq; [now apply flash_ctrl_secret_write_defined|]. intros w2.
  apply defined_seq; [now apply configure_defined|]. intros w3.
  discriminate.
Qed.

Lemma secrets_run_commit (w : W) :
  (existsb is_lock (trace (secrets_run h regs w)) = true ->
   exists ws1 a1 rs1 ws2 a2 rs2 d0 d1 s wl,
     start_prologue ++ trace (secrets_run h regs w)
     = start_commit_trace regs ws1 a1 rs1 ws2 a2 rs2 d0 d1 s
     /\ (forall i, i < kCreatorSeedSizeInWords -> secret_word_ok ws1 rs1 i)
     /\ (forall i, i < kOwnerSeedSizeInWords -> secret_word_ok ws2 rs2 i)
     /\ shares_check (root_key_share regs d0) (root_key_share regs d1)
          (kRootKeyShareSizeIn64BitWords regs) = Some OK_STATUS
     /\ out (secrets_run h regs w) = Done s
     /\ h _ (otp_ctrl_testutils_lock_partition kDifOtpCtrlPartitionSecret2 0%Z) wl
        = (s, final (secrets_run h regs w)))
  /\ (out (secrets_run h regs w) = Done OK_STATUS ->
      existsb is_lock (trace (secrets_run h regs w)) = true).
Proof.
  unfold secrets_run, seq_runs.
  destruct (secret_write_run_facts h kFlashInfoPageIdCreatorSecret kFlashInfoBankId
              kFlashInfoPartitionId kCreatorSeedSizeInWords w)
    as (_ & NL1 & _ & Ok1).
  destruct (out (run h (flash_ctrl_secret_write kFlashInfoPageIdCreatorSecret _ _ _) w))
    as [[|e1]|] eqn:O1; [|split; [rewrite NL1|rewrite O1]; discriminate ..].
  destruct (Ok1 eq_refl) as (ws1 & a1 & rs1 & T1 & C1). clear Ok1.
  set (w1 := final (run h (flash_ctrl_secret_write kFlashInfoPageIdCreatorSecret _ _ _) w)).
  destruct (secret_write_run_facts h kFlashInfoPageIdOwnerSecret kFlashInfoBankId
              kFlashInfoPartitionId kOwnerSeedSizeInWords w1)
    as (_ & NL2 & _ & Ok2).
  destruct (out (run h (flash_ctrl_secret_write kFlashInfoPageIdOwnerSecret _ _ _) w1))
    as [[|e2]|] eqn:O2; cbn [out trace final];
    [|split; [rewrite existsb_app, NL1, NL2|rewrite O2]; discriminate ..].
  destruct (Ok2 eq_refl) as (ws2 & a2 & rs2 & T2 & C2). clear Ok2.
  set (w2 := final (run h (flash_ctrl_secret_write kFlashInfoPageIdOwnerSecret _ _ _) w1)).
  destruct (configure_run_facts h regs w2) as (_ & _ & Lk & OkL).
  rewrite !existsb_app, NL1, NL2. cbn [orb].
  destruct (out (run h (otp_partition_secret2_configure regs) w2))
    as [[|e3]|] eqn:O3; cbn [out trace final run];
    rewrite ?app_nil_r.
  - split; [|intros _; now apply OkL].
    intros HL. destruct (Lk HL) as (d0 & d1 & s & wl & T3 & Chk & Hs & Hl).
    exists ws1, a1, rs1, ws2, a2, rs2, d0, d1, s, wl.
    rewrite T1, T2, T3. injection Hs as <-.
    split; [reflexivity|]. split; [exact C1|]. split; [exact C2|].
    split; [exact Chk|]. split; [reflexivity | exact Hl].
  - split; [|rewrite O3; discriminate].
    intros HL. destruct (Lk HL) as (d0 & d1 & s & wl & T3 & Chk & Hs & Hl).
    exists ws1, a1, rs1, ws2, a2, rs2, d0, d1, s, wl.
    rewrite T1, T2, T3, O3.
    split; [reflexivity|]. split; [exact C1|]. split; [exact C2|].
    split; [exact Chk|]. split; [exact Hs | exact Hl].
  - split; [|rewrite O3; discriminate].
    intros HL. destruct (Lk HL) as (d0 & d1 & s & wl & T3 & Chk & Hs & Hl).
    discriminate Hs.
Qed.

Lemma start_run_cases (w : W) :
  (exists e w1,
     h _ lc_ctrl_testutils_operational_state_check w = (ERROR e, w1)
     /\ run h (provisioning_device_secrets_start regs) w
        = {| out := Done (ERROR e);
             trace := [Ev lc_ctrl_testutils_operational_state_check (ERROR e)];
             final := w1 |})
  \/ (exists w1 e b w2,
        h _ lc_ctrl_testutils_operational_state_check w = (OK_STATUS, w1)
        /\ h _ (dif_otp_ctrl_is_digest_computed kDifOtpCtrlPartitionSecret2) w1
           = ((ERROR e, b), w2)
        /\ run h (provisioning_device_secrets_start regs) w
           = {| out := Done (ERROR e);
                trace := [Ev lc_ctrl_testutils_operational_state_check OK_STATUS;
                          Ev (dif_otp_ctrl_is_digest_computed
                                kDifOtpCtrlPartitionSecret2) (ERROR e, b)];
                final := w2 |})
  \/ (exists w1 w2,
        h _ lc_ctrl_testutils_operational_state_check w = (OK_STATUS, w1)
        /\ h _ (dif_otp_ctrl_is_digest_computed kDifOtpCtrlPartitionSecret2) w1
           = ((OK_STATUS, true), w2)
        /\ run h (provisioning_device_secrets_start regs) w
           = {| out := Done OK_STATUS; trace := start_skip_trace; final := w2 |})
  \/ (exists w2 e w3,
        h _ entropy_complex_init w2 = (ERROR e, w3)
        /\ run h (provisioning_device_secrets_start regs) w
           = {| out := Done (ERROR e);
                trace := [Ev lc_ctrl_testutils_operational_state_check OK_STATUS;
                          Ev (dif_otp_ctrl_is_digest_computed
                                kDifOtpCtrlPartitionSecret2) (OK_STATUS, false);
                          Ev entropy_complex_init (ERROR e)];
                final := w3 |})
  \/ (exists w3,
        run h (provisioning_device_secrets_start regs) w
        = {| out := out (secrets_run h regs w3);
             trace := start_prologue ++ trace (secrets_run h regs w3);
             final := final (secrets_run h regs w3) |}).
Proof.
  destruct (h _ lc_ctrl_testutils_operational_state_check w) as [[|e] w1] eqn:E1.
  2:{ left. exists e, w1. split; [reflexivity|].
      unfold provisioning_device_secrets_start. cbn. now rewrite E1. }
  right.
  destruct (h _ (dif_otp_ctrl_is_digest_computed kDifOtpCtrlPartitionSecret2) w1)
    as [[[|e] b] w2] eqn:E2.
  2:{ left. exists w1, e, b, w2. split; [reflexivity|]. split; [exact E2|].
      unfold provisioning_device_secrets_start. cbn. rewrite E1. cbn.
      now rewrite E2. }
  right. destruct b.
  { left. exists w1, w2. split; [reflexivity|]. split; [exact E2|].
    unfold provisioning_device_secrets_start. cbn. rewrite E1. cbn.
    now rewrite E2. }
  right. destruct (h _ entropy_complex_init w2) as [[|e] w3] eqn:E3.
  - right. exists w3. now apply (start_run_secrets w w1 w2 w3).
  - left. exists w2, e, w3. split; [exact E3|].
    unfold provisioning_device_secrets_start. cbn. rewrite E1. cbn.
    rewrite E2. cbn. now rewrite E3.
Qed.

(** X10: [provisioning_device_secrets_start] stops at the first failing
    driver call, whichever it is, and returns that call's status. *)
Theorem provisioning_device_secrets_start_fail_stop (w : W) :
  fail_stop (trace (run h (provisioning_device_secrets_start regs) w))
            (out (run h (provisioning_device_secrets_start regs) w)).
Proof.
  destruct (start_run_cases w)
    as [(e & w1 & _ & ->)|[(w1 & e & b & w2 & _ & _ & ->)|[(w1 & w2 & _ & _ & ->)
       |[(w2 & e & w3 & _ & ->)|(w3 & ->)]]]]; cbn; try easy.
  apply secrets_run_fail_stop.
Qed.

(** X11: the entropy operations of a provisioning run are an initial part
    of: the initialisation of the entropy complex, then
    instantiate/draw/uninstantiate for the creator secret, the same for the
    owner secret, then the configurator's instantiate, draw, reseed, draw,
    uninstantiate. *)
Theorem provisioning_device_secrets_start_entropy_order (w : W) :
  entropy_ops (trace (run h (provisioning_device_secrets_start regs) w))
    `prefix_of` start_entropy_ops regs.
Proof.
  unfold start_entropy_ops.
  destruct (start_run_cases w)
    as [(e & w1 & _ & ->)|[(w1 & e & b & w2 & _ & _ & ->)|[(w1 & w2 & _ & _ & ->)
       |[(w2 & e & w3 & _ & ->)|(w3 & ->)]]]]; cbn;
    try apply prefix_nil.
  - apply prefix_cons, prefix_nil.
  - apply prefix_cons, secrets_run_entropy_prefix.
Qed.

(** X12: with a share size that leaves a remainder below 4 modulo 8, no
    provisioning run leaves a local buffer. *)
Theorem provisioning_device_secrets_start_defined (w : W) :
  OTP_CTRL_PARAM_CREATOR_ROOT_KEY_SHARE0_SIZE regs mod 8 < 4 ->
  out (run h (provisioning_device_secrets_start regs) w) <> Undefined.
Proof.
  intros Hfit.
  destruct (start_run_cases w)
    as [(e & w1 & _ & ->)|[(w1 & e & b & w2 & _ & _ & ->)|[(w1 & w2 & _ & _ & ->)
       |[(w2 & e & w3 & _ & ->)|(w3 & ->)]]]]; cbn; try discriminate.
  now apply secrets_run_defined.
Qed.

(** X13: a provisioning run that issues the lock has made all its calls
    before it, each successfully: lifecycle check, digest query (unlocked),
    entropy initialisation, the creator secret write and the owner secret
    write with every word passing the final check, the two draws with shares
    passing the validator, and the two share writes.  The lock is its last
    call and the lock's status is returned. *)
Theorem provisioning_device_secrets_start_commit (w : W) :
  existsb is_lock (trace (run h (provisioning_device_secrets_start regs) w)) = true ->
  exists ws1 a1 rs1 ws2 a2 rs2 d0 d1 s,
    trace (run h (provisioning_device_secrets_start regs) w)
    = start_commit_trace regs ws1 a1 rs1 ws2 a2 rs2 d0 d1 s
    /\ (forall i, i < kCreatorSeedSizeInWords -> secret_word_ok ws1 rs1 i)
    /\ (forall i, i < kOwnerSeedSizeInWords -> secret_word_ok ws2 rs2 i)
    /\ shares_check (root_key_share regs d0) (root_key_share regs d1)
         (kRootKeyShareSizeIn64BitWords regs) = Some OK_STATUS
    /\ out (run h (provisioning_device_secrets_start regs) w) = Done s.
Proof.
  destruct (start_run_cases w)
    as [(e & w1 & _ & ->)|[(w1 & e & b & w2 & _ & _ & ->)|[(w1 & w2 & _ & _ & ->)
       |[(w2 & e & w3 & _ & ->)|(w3 & ->)]]]]; cbn; try discriminate.
  intros HL. destruct (proj1 (secrets_run_commit w3) HL)
    as (ws1 & a1 & rs1 & ws2 & a2 & rs2 & d0 & d1 & s & wl & T & C1 & C2 & Chk & O & _).
  exists ws1, a1, rs1, ws2, a2, rs2, d0, d1, s.
  exact (conj T (conj C1 (conj C2 (conj Chk O)))).
Qed.

(** X14: a provisioning run returns ok only in two ways: it found the
    partition locked and made no other call than the lifecycle check and the
    digest query, or its last call is the successful lock. *)
Theorem provisioning_device_secrets_start_success (w : W) :
  out (run h (provisioning_device_secrets_start regs) w) = Done OK_STATUS ->
  trace (run h (provisioning_device_secrets_start regs) w) = start_skip_trace
  \/ exists pre,
       trace (run h (provisioning_device_secrets_start regs) w)
       = pre ++ [lock_event OK_STATUS].
Proof.
  destruct (start_run_cases w)
    as [(e & w1 & _ & ->)|[(w1 & e & b & w2 & _ & _ & ->)|[(w1 & w2 & _ & _ & ->)
       |[(w2 & e & w3 & _ & ->)|(w3 & ->)]]]]; cbn; try discriminate.
  - now left.
  - intros Hok. right.
    destruct (secrets_run_commit w3) as [Shape Locks].
    destruct (Shape (Locks Hok))
      as (ws1 & a1 & rs1 & ws2 & a2 & rs2 & d0 & d1 & s & wl & T & _ & _ & _ & O & _).
    rewrite Hok in O. injection O as <-.
    change (Ev lc_ctrl_testutils_operational_state_check OK_STATUS
            :: Ev (dif_otp_ctrl_is_digest_computed kDifOtpCtrlPartitionSecret2)
                 (OK_STATUS, false)
            :: Ev entropy_complex_init OK_STATUS :: trace (secrets_run h regs w3))
      with (start_prologue ++ trace (secrets_run h regs w3)).
    rewrite T. unfold start_commit_trace.
    eexists. rewrite !app_assoc. reflexivity.
Qed.
End Provisioning.

(** ** Provisioning and the lock state of the device *)

Section LockContract.
Context {W : Type} (h : handler W) (regs : otp_ctrl_regs).
(** Whether the SECRET2 partition of the device is locked. *)
Variable locked : W -> bool.
(** A successful digest query reports the lock state and keeps it. *)
Hypothesis query_sound :
  forall w b w',
    h _ (dif_otp_ctrl_is_digest_computed kDifOtpCtrlPartitionSecret2) w
    = ((OK_STATUS, b), w') ->
    b = locked w /\ locked w' = locked w.
(** A successful lock leaves the partition locked. *)
Hypothesis lock_sets :
  forall w w',
    h _ (otp_ctrl_testutils_lock_partition kDifOtpCtrlPartitionSecret2 0%Z) w
    = (OK_STATUS, w') ->
    locked w' = true.
(** The lifecycle check keeps the lock state. *)
Hypothesis lc_keeps :
  forall w s w',
    h _ lc_ctrl_testutils_operational_state_check w = (s, w') ->
    locked w' = locked w.

Lemma start_ok_final_locked (w : W) :
  out (run h (provisioning_device_secrets_start regs) w) = Done OK_STATUS ->
  locked (final (run h (provisioning_device_secrets_start regs) w)) = true.
Proof using query_sound lock_sets.
  destruct (start_run_cases h regs w)
    as [(e & w1 & _ & ->)|[(w1 & e & b & w2 & _ & _ & ->)|[(w1 & w2 & _ & E2 & ->)
       |[(w2 & e & w3 & _ & ->)|(w3 & ->)]]]]; cbn; try discriminate.
  - intros _. apply query_sound in E2. destruct E2 as [<- ->]. reflexivity.
  - intros Hok. destruct (secrets_run_commit h regs w3) as [Shape Locks].
    destruct (Shape (Locks Hok))
      as (ws1 & a1 & rs1 & ws2 & a2 & rs2 & d0 & d1 & s & wl & _ & _ & _ & _ & O & Hl).
    rewrite Hok in O. injection O as <-. now apply lock_sets in Hl.
Qed.

(** X15: on a device whose digest query and lock behave as their names say,
    a provisioning run that returns ok leaves the SECRET2 partition
    locked. *)
Theorem provisioning_device_secrets_start_ok_locked (w : W) :
  out (run h (provisioning_device_secrets_start regs) w) = Done OK_STATUS ->
  locked (final (run h (provisioning_device_secrets_start regs) w)) = true.
Proof using query_sound lock_sets.
  apply start_ok_final_locked.
Qed.

(** X16: after a provisioning run that returned ok,
    [provisioning_device_secrets_end] returns ok whenever its digest query
    succeeds. *)
Theorem provisioning_device_secrets_end_after_start (w : W) (b : bool) (w' : W) :
  out (run h (provisioning_device_secrets_start regs) w) = Done OK_STATUS ->
  h _ (dif_otp_ctrl_is_digest_computed kDifOtpCtrlPartitionSecret2)
    (final (run h (provisioning_device_secrets_start regs) w))
  = ((OK_STATUS, b), w') ->
  run h provisioning_device_secrets_end
    (final (run h (provisioning_device_secrets_start regs) w))
  = {| out := Done OK_STATUS;
       trace := [Ev (dif_otp_ctrl_is_digest_computed kDifOtpCtrlPartitionSecret2)
                    (OK_STATUS, true)];
       final := w' |}.
Proof using query_sound lock_sets.
  intros Hok Hq. pose proof (start_ok_final_locked w Hok) as Hl.
  destruct (query_sound _ _ _ Hq) as [Hb _]. rewrite Hl in Hb. subst b.
  set (wf := final (run h (provisioning_device_secrets_start regs) w)) in *.
  unfold provisioning_device_secrets_end. cbn. now rewrite Hq.
Qed.

(** X17: a second provisioning run on the device a successful one left
    skips: when its lifecycle check and digest query succeed it makes these
    two calls only and returns ok. *)
Theorem provisioning_device_secrets_start_twice (w w1 w2 : W) (b : bool) :
  out (run h (provisioning_device_secrets_start regs) w) = Done OK_STATUS ->
  h _ lc_ctrl_testutils_operational_state_check
    (final (run h (provisioning_device_secrets_start regs) w)) = (OK_STATUS, w1) ->
  h _ (dif_otp_ctrl_is_digest_computed kDifOtpCtrlPartitionSecret2) w1
  = ((OK_STATUS, b), w2) ->
  run h (provisioning_device_secrets_start regs)
    (final (run h (provisioning_device_secrets_start regs) w))
  = {| out := Done OK_STATUS; trace := start_skip_trace; final := w2 |}.
Proof using All.
  intros Hok Hlc Hq. pose proof (start_ok_final_locked w Hok) as Hl.
  apply lc_keeps in Hlc as Hk. rewrite Hl in Hk.
  destruct (query_sound _ _ _ Hq) as [Hb _]. rewrite Hk in Hb. subst b.
  set (wf := final (run h (provisioning_device_secrets_start regs) w)) in *.
  unfold provisioning_device_secrets_start at 1. cbn.
  rewrite Hlc. cbn. now rewrite Hq.
Qed.
End LockContract.

(** ** The simulated device meets the lock contract *)

Lemma sim_query_sound (d : device) (b : bool) (d' : device) :
  sim _ (dif_otp_ctrl_is_digest_computed kDifOtpCtrlPartitionSecret2) d
  = ((OK_STATUS, b), d') ->
  b = secret2_digest d /\ secret2_digest d' = secret2_digest d.
Proof. cbn. intros [= <- <-]. now split. Qed.

Lemma sim_lock_sets (d d' : device) :
  sim _ (otp_ctrl_testutils_lock_partition kDifOtpCtrlPartitionSecret2 0%Z) d
  = (OK_STATUS, d') ->
  secret2_digest d' = true.
Proof. cbn. now intros [= <-]. Qed.

Lemma sim_lc_keeps (d : device) (s : status_t) (d' : device) :
  sim _ lc_ctrl_testutils_operational_state_check d = (s, d') ->
  secret2_digest d' = secret2_digest d.
Proof. cbn. now intros [= _ <-]. Qed.

(** ** More runs on the simulated device *)

Lemma flash_ctrl_secret_write_fail_stop_witness :
  out (run sim (flash_ctrl_secret_write 1 0 0 8) (fresh_device words_1_to_8))
  = Done OK_STATUS
  \/ out (run sim (flash_ctrl_secret_write 1 0 0 8) (fresh_device words_1_to_8))
     = Done INTERNAL.
Proof.
  apply (proj2 (flash_ctrl_secret_write_fail_stop sim 1 0 0 8
                  (fresh_device words_1_to_8))).
  - reflexivity.
  - vm_compute. lia.
Defined.

Lemma flash_ctrl_secret_write_programs_draw_witness :
  exists ws address s rest,
    trace (run sim (flash_ctrl_secret_write 1 0 0 8) (fresh_device words_1_to_8))
    = [ Ev (entropy_csrng_instantiate kHardenedBoolFalse) OK_STATUS;
        Ev (entropy_csrng_generate 8) (OK_STATUS, ws);
        Ev entropy_csrng_uninstantiate OK_STATUS;
        Ev (flash_ctrl_testutils_info_region_scrambled_setup 1 0 0)
           (OK_STATUS, address);
        Ev (flash_ctrl_testutils_erase_and_write_page address 0
              (words_stored 8 ws) kDifFlashCtrlPartitionTypeInfo 8) s ]
      ++ rest
    /\ length (words_stored 8 ws) = 8
    /\ Forall is_uint32 (words_stored 8 ws)
    /\ existsb is_flash_program rest = false.
Proof.
  apply (flash_ctrl_secret_write_programs_draw sim 1 0 0 8
           (fresh_device words_1_to_8)).
  reflexivity.
Defined.

Lemma otp_partition_secret2_configure_bounds_witness :
  out (run sim (otp_partition_secret2_configure sample_regs)
         (fresh_device words_1_to_16)) <> Undefined
  /\ out (run sim (otp_partition_secret2_configure odd_regs)
            (fresh_device words_1_to_16)) = Undefined.
Proof.
  split.
  - apply (proj1 (otp_partition_secret2_configure_bounds sim sample_regs)).
    vm_compute. lia.
  - apply (proj2 (otp_partition_secret2_configure_bounds sim odd_regs)
             ltac:(vm_compute; lia)
             (fresh_device words_1_to_16) (fresh_device words_1_to_16)
             (fresh_device [10; 11; 12; 13; 14; 15; 16]%Z)
             [1; 2; 3; 4; 5; 6; 7; 8; 9]%Z); reflexivity.
Defined.

Lemma provisioning_device_secrets_start_defined_witness :
  out (run sim (provisioning_device_secrets_start sample_regs)
         (fresh_device words_1_to_32)) <> Undefined.
Proof.
  apply provisioning_device_secrets_start_defined. vm_compute. lia.
Defined.

Lemma provisioning_device_secrets_start_commit_witness :
  exists ws1 a1 rs1 ws2 a2 rs2 d0 d1 s,
    trace (run sim (provisioning_device_secrets_start sample_regs)
             (fresh_device words_1_to_32))
    = start_commit_trace sample_regs ws1 a1 rs1 ws2 a2 rs2 d0 d1 s
    /\ (forall i, i < kCreatorSeedSizeInWords -> secret_word_ok ws1 rs1 i)
    /\ (forall i, i < kOwnerSeedSizeInWords -> secret_word_ok ws2 rs2 i)
    /\ shares_check (root_key_share sample_regs d0) (root_key_share sample_regs d1)
         (kRootKeyShareSizeIn64BitWords sample_regs) = Some OK_STATUS
    /\ out (run sim (provisioning_device_secrets_start sample_regs)
              (fresh_device words_1_to_32)) = Done s.
Proof.
  apply provisioning_device_secrets_start_commit. reflexivity.
Defined.

Lemma provisioning_device_secrets_start_success_witness :
  trace (run sim (provisioning_device_secrets_start sample_regs)
           (fresh_device words_1_to_32)) = start_skip_trace
  \/ exists pre,
       trace (run sim (provisioning_device_secrets_start sample_regs)
                (fresh_device words_1_to_32))
       = pre ++ [lock_event OK_STATUS].
Proof.
  apply provisioning_device_secrets_start_success. reflexivity.
Defined.

Lemma provisioning_device_secrets_start_ok_locked_witness :
  secret2_digest
    (final (run sim (provisioning_device_secrets_start sample_regs)
              (fresh_device words_1_to_32))) = true.
Proof.
  apply (provisioning_device_secrets_start_ok_locked sim sample_regs
           secret2_digest sim_query_sound sim_lock_sets).
  reflexivity.
Defined.

Lemma provisioning_device_secrets_end_after_start_witness :
  out (run sim provisioning_device_secrets_end
         (final (run sim (provisioning_device_secrets_start sample_regs)
                   (fresh_device words_1_to_32)))) = Done OK_STATUS.
Proof.
  rewrite (provisioning_device_secrets_end_after_start sim sample_regs
             secret2_digest sim_query_sound sim_lock_sets
             (fresh_device words_1_to_32) true
             (final (run sim (provisioning_device_secrets_start sample_regs)
                       (fresh_device words_1_to_32)))); reflexivity.
Defined.

Lemma provisioning_device_secrets_start_twice_witness :
  trace (run sim (provisioning_device_secrets_start sample_regs)
           (final (run sim (provisioning_device_secrets_start sample_regs)
                     (fresh_device words_1_to_32))))
  = start_skip_trace.
Proof.
  rewrite (provisioning_device_secrets_start_twice sim sample_regs
             secret2_digest sim_query_sound sim_lock_sets sim_lc_keeps
             (fresh_device words_1_to_32)
             (final (run sim (provisioning_device_secrets_start sample_regs)
                       (fresh_device words_1_to_32)))
             (final (run sim (provisioning_device_secrets_start sample_regs)
                       (fresh_device words_1_to_32)))
             true); reflexivity.
Defined.

(** * Facts on the OTBN RSA round-trip test *)
Module OtbnRsaTestFacts.
Import OtbnRsaTest.
Import Stdlib.Strings.String.StringSyntax.

Lemma buf_read_Some (buf : list Z) (n : nat) (data : list Z) :
  buf_read buf n = Some data -> data = take n buf /\ n <= length buf.
Proof.
  unfold buf_read. destruct (Nat.leb_spec n (length buf)); [|discriminate].
  intros [= <-]. now split.
Qed.

Lemma byte_fill_Some (buf : list Z) (n : nat) (bs out : list Z) :
  byte_fill buf n bs = Some out ->
  out = bytes_stored n bs ++ drop n buf /\ n <= length buf.
Proof.
  unfold byte_fill. destruct (Nat.leb_spec n (length buf)); [|discriminate].
  intros [= <-]. now split.
Qed.

Lemma length_bytes_stored (n : nat) (bs : list Z) : length (bytes_stored n bs) = n.
Proof. unfold bytes_stored. now rewrite length_map, length_seq. Qed.

Lemma valid_size_checks (n : nat) :
  (n mod 32 =? 0) && (negb (n / 32 =? 0) && (n / 32 <=? 16)) = true
  <-> valid_size n.
Proof.
  unfold valid_size.
  rewrite !andb_true_iff, negb_true_iff, Nat.eqb_eq, Nat.eqb_neq, Nat.leb_le.
  pose proof (Nat.div_mod_eq n 32). pose proof (Nat.mod_upper_bound n 32).
  lia.
Qed.

(** ** check_data *)

Lemma check_data_loop_equal (actual expected : list Z) (n i : nat) :
  i + n <= length actual -> i + n <= length expected ->
  (forall j, i <= j < i + n -> nth j actual 0%Z = nth j expected 0%Z) ->
  check_data_loop actual expected i n = Ret tt.
Proof.
  revert i. induction n as [|n IH]; intros i Ha He Heq; [reflexivity|].
  cbn [check_data_loop].
  rewrite (lookup_nth_Z actual i), (lookup_nth_Z expected i) by lia.
  rewrite (Heq i) by lia. rewrite Z.eqb_refl. cbn.
  apply IH; try lia. intros j Hj. apply Heq. lia.
Qed.

Lemma check_data_loop_mismatch (actual expected : list Z) (n i k : nat) :
  i + n <= length actual -> i + n <= length expected ->
  i <= k < i + n ->
  (forall j, i <= j < k -> nth j actual 0%Z = nth j expected 0%Z) ->
  nth k actual 0%Z <> nth k expected 0%Z ->
  check_data_loop actual expected i n
  = Abort (CheckFailed
             "Data mismatch at byte %d: 0x%x (actual) != 0x%x (expected)"%string
             [Z.of_nat k; nth k actual 0%Z; nth k expected 0%Z]).
Proof.
  revert i. induction n as [|n IH]; intros i Ha He Hk Heq Hne; [lia|].
  cbn [check_data_loop].
  rewrite (lookup_nth_Z actual i), (lookup_nth_Z expected i) by lia.
  destruct (Nat.eq_dec i k) as [->|Hik].
  - apply Z.eqb_neq in Hne. rewrite Hne. reflexivity.
  - rewrite (Heq i) by lia. rewrite Z.eqb_refl. cbn.
    apply IH; try lia. intros j Hj. apply Heq. lia.
Qed.

Lemma first_mismatch (actual expected : list Z) (n : nat) :
  (forall j, j < n -> nth j actual 0%Z = nth j expected 0%Z)
  \/ (exists k, k < n
        /\ (forall j, j < k -> nth j actual 0%Z = nth j expected 0%Z)
        /\ nth k actual 0%Z <> nth k expected 0%Z).
Proof.
  induction n as [|n [IH|(k & Hk & Heq & Hne)]].
  - left. intros j Hj. lia.
  - destruct (Z.eq_dec (nth n actual 0%Z) (nth n expected 0%Z)) as [He|Hne].
    + left. intros j Hj. destruct (Nat.eq_dec j n) as [->|]; [exact He|].
      apply IH. lia.
    + right. exists n. split; [lia|]. split; [|exact Hne].
      intros j Hj. now apply IH.
  - right. exists k. split; [lia|]. now split.
Qed.

Lemma take_eq_nth (actual expected : list Z) (n : nat) :
  n <= length actual -> n <= length expected ->
  (take n actual = take n expected
   <-> forall j, j < n -> nth j actual 0%Z = nth j expected 0%Z).
Proof.
  intros Ha He. split.
  - intros H j Hj.
    assert (E : take n actual !! j = take n expected !! j) by now rewrite H.
    rewrite !lookup_take_lt in E by lia.
    rewrite (lookup_nth_Z actual j), (lookup_nth_Z expected j) in E by lia.
    now injection E.
  - intros H. apply list_eq. intros j.
    destruct (Nat.lt_ge_cases j n) as [Hj|Hj].
    + rewrite !lookup_take_lt by lia.
      rewrite (lookup_nth_Z actual j), (lookup_nth_Z expected j) by lia.
      now rewrite H.
    + rewrite !lookup_take_ge by lia. reflexivity.
Qed.

(** X18: on buffers of at least [size_bytes] bytes, [check_data] passes
    exactly when the two buffers agree on their first [size_bytes] bytes, and
    otherwise stops the test at the first byte that differs, with its index
    and the two bytes. *)
Theorem check_data_spec (actual expected : list Z) (size_bytes : nat) :
  size_bytes <= length actual -> size_bytes <= length expected ->
  (check_data actual expected size_bytes = Ret tt
   <-> take size_bytes actual = take size_bytes expected)
  /\ (forall k, k < size_bytes ->
        (forall j, j < k -> nth j actual 0%Z = nth j expected 0%Z) ->
        nth k actual 0%Z <> nth k expected 0%Z ->
        check_data actual expected size_bytes
        = Abort (CheckFailed
                   "Data mismatch at byte %d: 0x%x (actual) != 0x%x (expected)"%string
                   [Z.of_nat k; nth k actual 0%Z; nth k expected 0%Z])).
Proof.
  intros Ha He. unfold check_data.
  assert (Mis : forall k, k < size_bytes ->
        (forall j, j < k -> nth j actual 0%Z = nth j expected 0%Z) ->
        nth k actual 0%Z <> nth k expected 0%Z ->
        check_data_loop actual expected 0 size_bytes
        = Abort (CheckFailed
                   "Data mismatch at byte %d: 0x%x (actual) != 0x%x (expected)"%string
                   [Z.of_nat k; nth k actual 0%Z; nth k expected 0%Z])).
  { intros k Hk Heq Hne. apply check_data_loop_mismatch; try lia; try assumption.
    intros j Hj. apply Heq. lia. }
  split; [|exact Mis].
  rewrite take_eq_nth by assumption. split.
  - intros Hret. destruct (first_mismatch actual expected size_bytes)
      as [Heq|(k & Hk & Heq & Hne)]; [exact Heq|].
    rewrite (Mis k Hk Heq Hne) in Hret. discriminate.
  - intros Heq. apply check_data_loop_equal; try lia.
    intros j Hj. apply Heq. lia.
Qed.

Lemma check_data_spec_witness :
  check_data [1; 2; 3; 9]%Z [1; 2; 4; 8]%Z 3
  = Abort (CheckFailed
             "Data mismatch at byte %d: 0x%x (actual) != 0x%x (expected)"%string
             [2; 3; 4]%Z).
Proof.
  apply (proj2 (check_data_spec [1; 2; 3; 9]%Z [1; 2; 4; 8]%Z 3
                  ltac:(simpl; lia) ltac:(simpl; lia)) 2).
  - lia.
  - intros j Hj. destruct j as [|[|j]]; [reflexivity | reflexivity | lia].
  - discriminate.
Defined.


Lemma check_data_loop_done {W : Type} (h : handler W) (actual expected : list Z)
    (n i : nat) (w : W) :
  out (run h (check_data_loop actual expected i n) w) = Done tt ->
  forall j, i <= j < i + n -> actual !! j = expected !! j /\ j < length actual.
Proof.
  revert i. induction n as [|n IH]; intros i Hd j Hj; [lia|].
  cbn [check_data_loop] in Hd.
  destruct (actual !! i) as [a|] eqn:Ea; [|discriminate Hd].
  destruct (expected !! i) as [e|] eqn:Ee; [|discriminate Hd].
  unfold CHECK in Hd. destruct (Z.eqb_spec a e) as [->|Hne]; [|discriminate Hd].
  cbn in Hd. destruct (Nat.eq_dec j i) as [->|Hji].
  - split; [congruence|]. now apply lookup_lt_Some in Ea.
  - apply (IH (S i) Hd). lia.
Qed.

Lemma check_data_done {W : Type} (h : handler W) (actual expected : list Z)
    (n : nat) (w : W) :
  out (run h (check_data actual expected n) w) = Done tt ->
  take n actual = take n expected.
Proof.
  intros Hd. apply list_eq. intros j.
  destruct (Nat.lt_ge_cases j n) as [Hj|Hj].
  - rewrite !lookup_take_lt by lia.
    apply (check_data_loop_done h actual expected n 0 w Hd). lia.
  - rewrite !lookup_take_ge by lia. reflexivity.
Qed.

(** ** The two OTBN operations *)

Section Operations.
Context {W : Type} (h : handler W).

#[local] Arguments Nat.div : simpl never.
#[local] Arguments Nat.modulo : simpl never.

Lemma test_run_bind {A B : Type} (p : prog A) (f : A -> prog B) (w : W) :
  run h (bind p f) w
  = match out (run h p w) with
    | Done a =>
      let r := run h (f a) (final (run h p w)) in
      {| out := out r; trace := trace (run h p w) ++ trace r; final := final r |}
    | Aborted x =>
      {| out := Aborted x; trace := trace (run h p w); final := final (run h p w) |}
    | Undefined =>
      {| out := Undefined; trace := trace (run h p w); final := final (run h p w) |}
    end.
Proof.
  revert w. induction p as [a|x| |X c k IH]; intros w; cbn.
  - now destruct (run h (f a) w).
  - reflexivity.
  - reflexivity.
  - destruct (h X c w) as [x w']. cbn. rewrite IH.
    now destruct (out (run h (k x) w')).
Qed.

Lemma bind_done {A B : Type} (p : prog A) (f : A -> prog B) (w : W) (r : B) :
  out (run h (bind p f) w) = Done r ->
  exists a, out (run h p w) = Done a
            /\ out (run h (f a) (final (run h p w))) = Done r.
Proof.
  rewrite test_run_bind. destruct (out (run h p w)) as [a| |]; cbn; try discriminate.
  intros H. now exists a.
Qed.

Lemma rsa_encrypt_done (otbn : dif_otbn_t) (modulus in_ buf : list Z)
    (size_bytes : nat) (w : W) (r : list Z) :
  out (run h (rsa_encrypt (Some otbn) modulus in_ buf size_bytes) w) = Done r ->
  exists rs,
    trace (run h (rsa_encrypt (Some otbn) modulus in_ buf size_bytes) w)
    = encrypt_trace otbn modulus in_ size_bytes rs
    /\ r = bytes_stored size_bytes rs ++ drop size_bytes buf
    /\ valid_size size_bytes
    /\ size_bytes <= length modulus /\ size_bytes <= length in_
    /\ size_bytes <= length buf.
Proof.
  unfold rsa_encrypt, CHECK. cbn.
  destruct (size_bytes mod 32 =? 0) eqn:C1; cbn; [|discriminate].
  destruct (negb (size_bytes / 32 =? 0) && (size_bytes / 32 <=? 16)) eqn:C2; cbn;
    [|discriminate].
  assert (V : valid_size size_bytes) by (apply valid_size_checks; now rewrite C1, C2).
  call_status h as w1 E1; [|discriminate].
  call_status h as w2 E2; [|discriminate].
  destruct (buf_read modulus size_bytes) as [dm|] eqn:Rm; cbn; [|discriminate].
  apply buf_read_Some in Rm. destruct Rm as [-> Lm].
  call_status h as w3 E3; [|discriminate].
  destruct (buf_read in_ size_bytes) as [di|] eqn:Ri; cbn; [|discriminate].
  apply buf_read_Some in Ri. destruct Ri as [-> Li].
  call_status h as w4 E4; [|discriminate].
  call_status h as w5 E5; [|discriminate].
  call_status h as w6 E6; [|discriminate].
  call_reply h as rs w7 E7; [|discriminate].
  destruct (byte_fill buf size_bytes rs) as [b|] eqn:Fb; cbn; [|discriminate].
  apply byte_fill_Some in Fb. destruct Fb as [-> Lb].
  intros [= <-]. exists rs.
  split; [reflexivity|]. split; [reflexivity|]. split; [exact V|].
  now repeat split.
Qed.

Lemma rsa_decrypt_done (otbn : dif_otbn_t) (modulus private_exponent in_ buf : list Z)
    (size_bytes : nat) (w : W) (r : list Z) :
  out (run h (rsa_decrypt (Some otbn) modulus private_exponent in_ buf size_bytes) w)
  = Done r ->
  exists rs,
    trace (run h (rsa_decrypt (Some otbn) modulus private_exponent in_ buf
                    size_bytes) w)
    = decrypt_trace otbn modulus private_exponent in_ size_bytes rs
    /\ r = bytes_stored size_bytes rs ++ drop size_bytes buf
    /\ valid_size size_bytes
    /\ size_bytes <= length modulus /\ size_bytes <= length private_exponent
    /\ size_bytes <= length in_ /\ size_bytes <= length buf.
Proof.
  unfold rsa_decrypt, CHECK. cbn.
  destruct (size_bytes mod 32 =? 0) eqn:C1; cbn; [|discriminate].
  destruct (negb (size_bytes / 32 =? 0) && (size_bytes / 32 <=? 16)) eqn:C2; cbn;
    [|discriminate].
  assert (V : valid_size size_bytes) by (apply valid_size_checks; now rewrite C1, C2).
  call_status h as w1 E1; [|discriminate].
  call_status h as w2 E2; [|discriminate].
  destruct (buf_read modulus size_bytes) as [dm|] eqn:Rm; cbn; [|discriminate].
  apply buf_read_Some in Rm. destruct Rm as [-> Lm].
  call_status h as w3 E3; [|discriminate].
  destruct (buf_read private_exponent size_bytes) as [de|] eqn:Re; cbn;
    [|discriminate].
  apply buf_read_Some in Re. destruct Re as [-> Le].
  call_status h as w4 E4; [|discriminate].
  destruct (buf_read in_ size_bytes) as [di|] eqn:Ri; cbn; [|discriminate].
  apply buf_read_Some in Ri. destruct Ri as [-> Li].
  call_status h as w5 E5; [|discriminate].
  call_status h as w6 E6; [|discriminate].
  call_status h as w7 E7; [|discriminate].
  call_reply h as rs w8 E8; [|discriminate].
  destruct (byte_fill buf size_bytes rs) as [b|] eqn:Fb; cbn; [|discriminate].
  apply byte_fill_Some in Fb. destruct Fb as [-> Lb].
  intros [= <-]. exists rs.
  split; [reflexivity|]. split; [reflexivity|]. split; [exact V|].
  now repeat split.
Qed.

(** X19: the two operations accept a non-null OTBN handle and a size of 32
    to 512 bytes in steps of 32 and nothing else: otherwise a CHECK stops the
    test before any OTBN call; with them, the first call writes the mode, 1
    for encryption and 2 for decryption. *)
Theorem rsa_size_validation (otbn : option dif_otbn_t)
    (modulus private_exponent in_ buf : list Z) (size_bytes : nat) (w : W) :
  (otbn = None \/ ~ valid_size size_bytes ->
   (exists msg,
      run h (rsa_encrypt otbn modulus in_ buf size_bytes) w
      = {| out := Aborted (CheckFailed msg []); trace := []; final := w |})
   /\ (exists msg,
         run h (rsa_decrypt otbn modulus private_exponent in_ buf size_bytes) w
         = {| out := Aborted (CheckFailed msg []); trace := []; final := w |}))
  /\ (forall o, otbn = Some o -> valid_size size_bytes ->
      (exists s rest,
         trace (run h (rsa_encrypt otbn modulus in_ buf size_bytes) w)
         = Ev (otbn_testutils_write_data o 4 (uint32_bytes 1) kOtbnVarRsaMode) s
           :: rest)
      /\ (exists s rest,
            trace (run h (rsa_decrypt otbn modulus private_exponent in_ buf
                            size_bytes) w)
            = Ev (otbn_testutils_write_data o 4 (uint32_bytes 2) kOtbnVarRsaMode) s
              :: rest)).
Proof.
  split.
  - intros Hbad. destruct otbn as [o|]; [|split; eexists; reflexivity].
    destruct Hbad as [Hnone|Hsize]; [discriminate|].
    unfold rsa_encrypt, rsa_decrypt, CHECK.
    destruct (size_bytes mod 32 =? 0) eqn:C1; cbn;
      [|split; eexists; reflexivity].
    destruct (negb (size_bytes / 32 =? 0) && (size_bytes / 32 <=? 16)) eqn:C2; cbn;
      [|split; eexists; reflexivity].
    exfalso. apply Hsize. apply valid_size_checks. now rewrite C1, C2.
  - intros o -> V. apply valid_size_checks in V.
    apply andb_true_iff in V. destruct V as [C1 C2].
    unfold rsa_encrypt, rsa_decrypt, CHECK. rewrite C1, C2. cbn.
    split.
    + destruct (h _ (otbn_testutils_write_data o 4 (uint32_bytes 1) kOtbnVarRsaMode) w)
        as [s w1]. cbn. eexists _, _. reflexivity.
    + destruct (h _ (otbn_testutils_write_data o 4 (uint32_bytes 2) kOtbnVarRsaMode) w)
        as [s w1]. cbn. eexists _, _. reflexivity.
Qed.

(** X20: an operation that returns has made exactly its calls, each
    successfully and in the order of the source: mode, limb count
    ([size_bytes / 32]), modulus, (for decryption) private exponent, input,
    execute, wait, read; its result is the output buffer with the
    [size_bytes] bytes read from OTBN at its start; and all buffers held at
    least [size_bytes] bytes. *)
Theorem rsa_operations_done (otbn : dif_otbn_t)
    (modulus private_exponent in_ buf : list Z) (size_bytes : nat) (w : W)
    (r : list Z) :
  (out (run h (rsa_encrypt (Some otbn) modulus in_ buf size_bytes) w) = Done r ->
   exists rs,
     trace (run h (rsa_encrypt (Some otbn) modulus in_ buf size_bytes) w)
     = encrypt_trace otbn modulus in_ size_bytes rs
     /\ r = bytes_stored size_bytes rs ++ drop size_bytes buf
     /\ valid_size size_bytes
     /\ size_bytes <= length modulus /\ size_bytes <= length in_
     /\ size_bytes <= length buf)
  /\ (out (run h (rsa_decrypt (Some otbn) modulus private_exponent in_ buf
                    size_bytes) w) = Done r ->
      exists rs,
        trace (run h (rsa_decrypt (Some otbn) modulus private_exponent in_ buf
                        size_bytes) w)
        = decrypt_trace otbn modulus private_exponent in_ size_bytes rs
        /\ r = bytes_stored size_bytes rs ++ drop size_bytes buf
        /\ valid_size size_bytes
        /\ size_bytes <= length modulus /\ size_bytes <= length private_exponent
        /\ size_bytes <= length in_ /\ size_bytes <= length buf).
Proof.
  split; [apply rsa_encrypt_done | apply rsa_decrypt_done].
Qed.

Lemma elapsed_cycles (t s : Z) :
  to_uint32 (to_uint64 (to_uint64 t - s)) = ((t - s) mod 2 ^ 32)%Z.
Proof.
  unfold to_uint32, to_uint64.
  rewrite Zminus_mod_idemp_l.
  apply Z.mod_mod_divide. exists (2 ^ 32)%Z. reflexivity.
Qed.

(** X21: [profile_end] reads the cycle counter once and logs the cycles
    since [profile_start] modulo 2^32, and that number divided by 100 as
    microseconds; the cycle count is exact when fewer than 2^32 cycles have
    passed. *)
Theorem profile_end_cycles (msg : String.string) (st : profile_t) (t : Z)
    (w w1 w2 : W) :
  let cycles := ((t - t_start st) mod 2 ^ 32)%Z in
  h _ ibex_mcycle_read w = (t, w1) ->
  h _ (LOG_INFO "%s took %u cycles or %u us @ 100 MHz."%string
         [LogStr msg; LogInt cycles; LogInt (cycles / 100)]) w1 = (tt, w2) ->
  run h (profile_end msg st) w
  = {| out := Done {| t_start := t_start st; t_end := to_uint64 t |};
       trace := [ Ev ibex_mcycle_read t;
                  Ev (LOG_INFO "%s took %u cycles or %u us @ 100 MHz."%string
                        [LogStr msg; LogInt cycles; LogInt (cycles / 100)]) tt ];
       final := w2 |}
  /\ (0 <= cycles < 2 ^ 32)%Z
  /\ ((0 <= t - t_start st < 2 ^ 32)%Z -> cycles = (t - t_start st)%Z).
Proof.
  intros cycles E1 E2. split; [|split].
  - unfold profile_end. cbn [bind perform run]. rewrite E1.
    cbn [t_start t_end bind run logged out trace final].
    rewrite elapsed_cycles. fold cycles. cbn [bind run]. rewrite E2. reflexivity.
  - apply Z.mod_pos_bound. lia.
  - intros Hr. now apply Z.mod_small.
Qed.

Lemma length_filled (buf : list Z) (n : nat) (rs : list Z) :
  n <= length buf -> length (bytes_stored n rs ++ drop n buf) = length buf.
Proof.
  intros H. rewrite length_app, length_bytes_stored, length_drop. lia.
Qed.

(** X22: a round trip that runs to its end has checked both directions: the
    bytes OTBN produced for the encryption are the expected ciphertext, the
    bytes it produced for the decryption (of the expected ciphertext) are the
    plaintext, [size_bytes] is a size the operations accept, and the output
    buffers keep their lengths. *)
Theorem rsa_roundtrip_done (base : Z) (size_bytes : nat)
    (modulus private_exponent in_ encrypted_expected : list Z)
    (out_encrypted out_decrypted : list Z) (st : profile_t) (w : W)
    (oe od : list Z) (st' : profile_t) :
  out (run h (rsa_roundtrip base size_bytes modulus private_exponent in_
                encrypted_expected out_encrypted out_decrypted st) w)
  = Done (oe, od, st') ->
  take size_bytes oe = take size_bytes encrypted_expected
  /\ take size_bytes od = take size_bytes in_
  /\ valid_size size_bytes
  /\ length oe = length out_encrypted
  /\ length od = length out_decrypted.
Proof.
  unfold rsa_roundtrip. intros H.
  apply bind_done in H as (st1 & _ & H).
  apply bind_done in H as (otbn & _ & H).
  apply bind_done in H as (u1 & _ & H).
  apply bind_done in H as (st2 & _ & H).
  apply bind_done in H as (u2 & _ & H).
  apply bind_done in H as (st3 & _ & H).
  apply bind_done in H as (oe' & Henc & H).
  apply bind_done in H as (u3 & Hce & H).
  apply bind_done in H as (st4 & _ & H).
  change kTestDecrypt with true in H. cbv iota in H.
  apply bind_done in H as (u4 & _ & H).
  apply bind_done in H as (st5 & _ & H).
  apply bind_done in H as (od' & Hdec & H).
  apply bind_done in H as (u5 & Hcd & H).
  apply bind_done in H as (st6 & _ & H).
  cbn in H. injection H as <- <- <-.
  destruct u3, u5.
  apply check_data_done in Hce. apply check_data_done in Hcd.
  apply rsa_encrypt_done in Henc.
  destruct Henc as (rs1 & _ & -> & V & _ & _ & L1).
  apply rsa_decrypt_done in Hdec.
  destruct Hdec as (rs2 & _ & -> & _ & _ & _ & _ & L2).
  split; [exact Hce|]. split; [exact Hcd|]. split; [exact V|].
  split; now apply length_filled.
Qed.
End Operations.

(** ** Runs on the simulated OTBN *)

Lemma rsa_size_validation_witness :
  exists msg,
    run sim (rsa_encrypt (Some {| base_addr := 0 |}) [] [] [] 48)
        {| answer := []; cycle := 0; step := 1 |}
    = {| out := Aborted (CheckFailed msg []); trace := [];
         final := {| answer := []; cycle := 0; step := 1 |} |}.
Proof.
  apply (proj1 (rsa_size_validation sim (Some {| base_addr := 0 |}) [] [] [] [] 48
                  {| answer := []; cycle := 0; step := 1 |})).
  right. intros [H _]. vm_compute in H. discriminate H.
Defined.

Lemma rsa_operations_done_witness :
  exists rs,
    trace (run sim (rsa_encrypt (Some {| base_addr := 0 |}) bytes_0_to_31
                      bytes_0_to_31 (repeat 0%Z 32) 32)
             {| answer := bytes_0_to_31; cycle := 0; step := 1 |})
    = encrypt_trace {| base_addr := 0 |} bytes_0_to_31 bytes_0_to_31 32 rs
    /\ bytes_0_to_31 = bytes_stored 32 rs ++ drop 32 (repeat 0%Z 32)
    /\ valid_size 32
    /\ 32 <= length bytes_0_to_31 /\ 32 <= length bytes_0_to_31
    /\ 32 <= length (repeat 0%Z 32).
Proof.
  apply (proj1 (rsa_operations_done sim {| base_addr := 0 |} bytes_0_to_31 []
                  bytes_0_to_31 (repeat 0%Z 32) 32
                  {| answer := bytes_0_to_31; cycle := 0; step := 1 |}
                  bytes_0_to_31)).
  reflexivity.
Defined.

Lemma profile_end_cycles_witness :
  run sim (profile_end "Encryption"%string {| t_start := 100; t_end := 0 |})
      {| answer := []; cycle := 4294967796; step := 1 |}
  = {| out := Done {| t_start := 100; t_end := 4294967796 |};
       trace := [ Ev ibex_mcycle_read 4294967796%Z;
                  Ev (LOG_INFO "%s took %u cycles or %u us @ 100 MHz."%string
                        [LogStr "Encryption"%string; LogInt 400; LogInt 4]) tt ];
       final := {| answer := []; cycle := 4294967797; step := 1 |} |}.
Proof.
  apply (profile_end_cycles sim "Encryption"%string {| t_start := 100; t_end := 0 |}
           4294967796%Z
           {| answer := []; cycle := 4294967796; step := 1 |}
           {| answer := []; cycle := 4294967797; step := 1 |}
           {| answer := []; cycle := 4294967797; step := 1 |});
    reflexivity.
Defined.

Lemma rsa_roundtrip_done_witness :
  take 32 bytes_0_to_31 = take 32 bytes_0_to_31
  /\ take 32 bytes_0_to_31 = take 32 bytes_0_to_31
  /\ valid_size 32
  /\ length bytes_0_to_31 = length (repeat 0%Z 32)
  /\ length bytes_0_to_31 = length (repeat 0%Z 32).
Proof.
  apply (rsa_roundtrip_done sim 0%Z 32 bytes_0_to_31 bytes_0_to_31 bytes_0_to_31
           bytes_0_to_31 (repeat 0%Z 32) (repeat 0%Z 32)
           {| t_start := 0; t_end := 0 |}
           {| answer := bytes_0_to_31; cycle := 0; step := 7 |}
           bytes_0_to_31 bytes_0_to_31 {| t_start := 28; t_end := 35 |}).
  vm_compute. reflexivity.
Defined.

End OtbnRsaTestFacts.
